(** * Bus role hand-off and broadcast fan-out of the tracking server

    A shallow embedding of [src/app.js]: the two module-level variables
    [connectedUsers] (a JS [Map]) and [busUser], the five socket handlers
    registered in [io.on('connection', ...)], and the part of socket.io the
    handlers rely on (who receives [io.emit], [socket.emit] and
    [io.to(id).emit]). *)

From Stdlib Require Import Ascii String List Bool Arith NArith Lia PrimFloat
  DecimalString Permutation.
Import ListNotations.
Local Open Scope string_scope.
Local Open Scope list_scope.

(** ** JavaScript values carried by the events *)

(** A [string] stands for a JS string, one character per UTF-16 code unit;
    the strings of the model are those whose code units are below 256. *)

(** The payload of [send-location] is whatever the client put on the wire. *)
#[local] Set Warnings "-register-all".
Inductive value : Type :=
| VUndefined
| VNull
| VBool (b : bool)
| VNum (x : float)
| VStr (s : string)
| VArr (xs : list value)
| VObj (fields : list (string * value)).

(** A JS [Map] with string keys, and a JS object literal: both keep their
    keys in insertion order, [set] on a key that is present overwrites in
    place, [set] on a new key appends. *)
Module Alist.
Section Alist.
Context {V : Type}.

Fixpoint get (k : string) (l : list (string * V)) : option V :=
  match l with
  | [] => None
  | (k', v) :: tl => if String.eqb k' k then Some v else get k tl
  end.

Definition has (k : string) (l : list (string * V)) : bool :=
  match get k l with Some _ => true | None => false end.

Fixpoint set (k : string) (v : V) (l : list (string * V)) : list (string * V) :=
  match l with
  | [] => [(k, v)]
  | (k', v') :: tl =>
      if String.eqb k' k then (k', v) :: tl else (k', v') :: set k v tl
  end.

Fixpoint delete (k : string) (l : list (string * V)) : list (string * V) :=
  match l with
  | [] => []
  | (k', v') :: tl =>
      if String.eqb k' k then delete k tl else (k', v') :: delete k tl
  end.

Definition keys (l : list (string * V)) : list string := map fst l.
Definition values (l : list (string * V)) : list V := map snd l.
End Alist.
End Alist.

(** The decimal spelling of an array index, as a property name. *)
Definition index_key (n : nat) : string :=
  NilEmpty.string_of_uint (Nat.to_uint n).

Fixpoint indexed {A : Type} (n : nat) (xs : list A) : list (string * A) :=
  match xs with
  | [] => []
  | x :: tl => (index_key n, x) :: indexed (S n) tl
  end.

Fixpoint chars (s : string) : list value :=
  match s with
  | EmptyString => []
  | String c tl => VStr (String c EmptyString) :: chars tl
  end.

(** The own enumerable properties that [...data] copies into an object
    literal: the fields of an object, the indexed elements of an array or of
    a string, nothing for [undefined], [null], booleans and numbers. *)
Definition own_properties (data : value) : list (string * value) :=
  match data with
  | VObj fields => fields
  | VArr xs => indexed 0 xs
  | VStr s => indexed 0 (chars s)
  | _ => []
  end.

(** The value of a decimal digit. *)
Definition digit (c : Ascii.ascii) : option N :=
  let n := Ascii.N_of_ascii c in
  if (N.leb 48 n && N.leb n 57)%bool then Some (n - 48)%N else None.

Fixpoint decimal (acc : N) (s : string) : option N :=
  match s with
  | EmptyString => Some acc
  | String c tl =>
      match digit c with
      | Some d => decimal (10 * acc + d)%N tl
      | None => None
      end
  end.

(** A property name that is an array index: the canonical decimal spelling,
    without leading zero, of an integer from 0 to 2^32 - 2. *)
Definition array_index (k : string) : option N :=
  match k with
  | EmptyString => None
  | String c tl =>
      if Ascii.eqb c "0"%char then
        match tl with
        | EmptyString => Some 0%N
        | String _ _ => None
        end
      else
        match decimal 0 k with
        | Some n => if N.leb n 4294967294 then Some n else None
        | None => None
        end
  end.

Fixpoint insert_by_index (n : N) (kv : string * value)
  (l : list (N * (string * value))) : list (N * (string * value)) :=
  match l with
  | [] => [(n, kv)]
  | (m, kv') :: tl =>
      if N.ltb n m then (n, kv) :: (m, kv') :: tl
      else (m, kv') :: insert_by_index n kv tl
  end.

Definition index_properties (o : list (string * value))
  : list (N * (string * value)) :=
  fold_right (fun kv acc =>
                match array_index (fst kv) with
                | Some n => insert_by_index n kv acc
                | None => acc
                end) [] o.

Definition named_property (kv : string * value) : bool :=
  match array_index (fst kv) with
  | Some _ => false
  | None => true
  end.

(** The order in which an object lists its own properties, as
    [JSON.stringify] writes them: array indices first, ascending, then the
    other names in the order they were created. *)
Definition property_order (o : list (string * value)) : list (string * value) :=
  map snd (index_properties o) ++ filter named_property o.

(** [{ ...o, ...props }]: each property is written in turn, a later one
    overwriting an earlier one of the same name in place. *)
Definition spread (o props : list (string * value)) : list (string * value) :=
  property_order (fold_left (fun acc kv => Alist.set (fst kv) (snd kv) acc) props o).

(** ** Server state *)

(** An entry of [connectedUsers]: [{ id, isBus, location }]. *)
Record user : Type := mkUser {
  id : string;
  isBus : bool;
  location : value
}.

Definition set_isBus (u : user) (b : bool) : user :=
  {| id := id u; isBus := b; location := location u |}.

Definition set_location (u : user) (data : value) : user :=
  {| id := id u; isBus := isBus u; location := data |}.

(** [{ id: socket.id, ...user }]: a fresh object; every property of [user],
    its [id] included, is written after [id: socket.id] and overwrites it. *)
Definition bus_snapshot (sid : string) (u : user) : user :=
  let o := {| id := sid; isBus := isBus u; location := location u |} in
  {| id := id u; isBus := isBus o; location := location o |}.

(** [let connectedUsers = new Map(); let busUser = null;] *)
Record server : Type := mkServer {
  connectedUsers : list (string * user);
  busUser : option user
}.

Definition initial : server := {| connectedUsers := []; busUser := None |}.

(** ** Outbound events *)

Inductive message : Type :=
| UsersList (users : list user) (currentBus : option user)
| ReceiveLocation (payload : list (string * value))
| BusStatusChanged (flag : bool)
| BusUserChanged (busUserId : option string) (bus : option user)
| UserDisconnected (sid : string).

(** The three ways the handlers send: [io.emit], [socket.emit] on the
    handler's own socket, [io.to(room).emit]. *)
Inductive emit : Type :=
| IoEmit (m : message)
| SocketEmit (sid : string) (m : message)
| IoToEmit (room : string) (m : message).

Definition emitted (e : emit) : message :=
  match e with
  | IoEmit m => m
  | SocketEmit _ m => m
  | IoToEmit _ m => m
  end.

(** ** Handlers: state passing with a log of what was emitted *)

Definition handler (A : Type) : Type := server -> A * server * list emit.

Definition ret {A : Type} (a : A) : handler A := fun s => (a, s, []).

Definition bind {A B : Type} (c : handler A) (k : A -> handler B) : handler B :=
  fun s =>
    let '(a, s1, out1) := c s in
    let '(b, s2, out2) := k a s1 in
    (b, s2, out1 ++ out2).

Declare Scope handler_scope.
Delimit Scope handler_scope with handler.
Notation "x <- c ;; k" := (bind c (fun x => k))
  (at level 61, c at next level, right associativity) : handler_scope.
Notation "c ;; k" := (bind c (fun _ => k))
  (at level 61, right associativity) : handler_scope.
Local Open Scope handler_scope.

Definition users_get (k : string) : handler (option user) :=
  fun s => (Alist.get k (connectedUsers s), s, []).

Definition users_has (k : string) : handler bool :=
  fun s => (Alist.has k (connectedUsers s), s, []).

Definition users_set (k : string) (u : user) : handler unit :=
  fun s => (tt, {| connectedUsers := Alist.set k u (connectedUsers s);
                   busUser := busUser s |}, []).

Definition users_delete (k : string) : handler unit :=
  fun s => (tt, {| connectedUsers := Alist.delete k (connectedUsers s);
                   busUser := busUser s |}, []).

Definition users_values : handler (list user) :=
  fun s => (Alist.values (connectedUsers s), s, []).

Definition read_busUser : handler (option user) :=
  fun s => (busUser s, s, []).

Definition write_busUser (b : option user) : handler unit :=
  fun s => (tt, {| connectedUsers := connectedUsers s; busUser := b |}, []).

Definition send (e : emit) : handler unit := fun s => (tt, s, [e]).

Definition when {A : Type} (o : option A) (k : A -> handler unit) : handler unit :=
  match o with
  | Some a => k a
  | None => ret tt
  end.

(** [io.on('connection', (socket) => ...)], up to the first [socket.on]. *)
Definition on_connection (sid : string) : handler unit :=
  users_set sid {| id := sid; isBus := false; location := VNull |} ;;
  users <- users_values ;;
  currentBus <- read_busUser ;;
  send (SocketEmit sid (UsersList users currentBus)).

(** [socket.on('send-location', (data) => ...)].  The assignment to
    [location] leaves [isBus] as it was, so [user?.isBus] is the flag of the
    entry that was looked up; it is [undefined], hence [false], when there
    is no entry. *)
Definition on_send_location (sid : string) (data : value) : handler unit :=
  user <- users_get sid ;;
  when user (fun u => users_set sid (set_location u data)) ;;
  send (IoEmit (ReceiveLocation
    (spread [("id", VStr sid);
             ("isBus", VBool (match user with
                              | Some u => isBus u || false
                              | None => false
                              end))]
            (own_properties data)))).

(** [socket.on('set-as-bus', () => ...)]. *)
Definition on_set_as_bus (sid : string) : handler unit :=
  old <- read_busUser ;;
  when old (fun b =>
    known <- users_has (id b) ;;
    if known then
      prevBus <- users_get (id b) ;;
      when prevBus (fun p =>
        users_set (id b) (set_isBus p false) ;;
        send (IoToEmit (id b) (BusStatusChanged false)))
    else ret tt) ;;
  user <- users_get sid ;;
  when user (fun u =>
    let u' := set_isBus u true in
    users_set sid u' ;;
    write_busUser (Some (bus_snapshot sid u')) ;;
    send (SocketEmit sid (BusStatusChanged true)) ;;
    send (IoEmit (BusUserChanged (Some sid) (Some (bus_snapshot sid u'))))).

(** [busUser && busUser.id === socket.id] *)
Definition is_bus_socket (b : option user) (sid : string) : bool :=
  match b with
  | Some x => String.eqb (id x) sid
  | None => false
  end.

(** [socket.on('remove-bus', () => ...)]. *)
Definition on_remove_bus (sid : string) : handler unit :=
  b <- read_busUser ;;
  if is_bus_socket b sid then
    user <- users_get sid ;;
    when user (fun u => users_set sid (set_isBus u false)) ;;
    write_busUser None ;;
    send (IoEmit (BusUserChanged None None)) ;;
    send (SocketEmit sid (BusStatusChanged false))
  else ret tt.

(** [socket.on('disconnect', () => ...)]. *)
Definition on_disconnect (sid : string) : handler unit :=
  b <- read_busUser ;;
  (if is_bus_socket b sid then
     write_busUser None ;;
     send (IoEmit (BusUserChanged None None))
   else ret tt) ;;
  users_delete sid ;;
  send (IoEmit (UserDisconnected sid)).

(** ** Events and runs *)

Inductive event : Type :=
| Connect (sid : string)
| SendLocation (sid : string) (data : value)
| SetAsBus (sid : string)
| RemoveBus (sid : string)
| Disconnect (sid : string).

Definition sender (ev : event) : string :=
  match ev with
  | Connect sid | SendLocation sid _ | SetAsBus sid | RemoveBus sid
  | Disconnect sid => sid
  end.

Definition handle (ev : event) : handler unit :=
  match ev with
  | Connect sid => on_connection sid
  | SendLocation sid data => on_send_location sid data
  | SetAsBus sid => on_set_as_bus sid
  | RemoveBus sid => on_remove_bus sid
  | Disconnect sid => on_disconnect sid
  end.

(** The server after a handler has run to completion, and what it emitted. *)
Definition after {A : Type} (c : handler A) (s : server) : server := snd (fst (c s)).
Definition output {A : Type} (c : handler A) (s : server) : list emit := snd (c s).

(** Handlers run one after the other, each to completion. *)
Definition exec (evs : list event) (s : server) : server :=
  fold_left (fun acc ev => after (handle ev) acc) evs s.

(** ** The transport: which sockets an emit reaches

    socket.io keeps the set of connected sockets of the namespace.  A socket
    joins the room named by its own id before the [connection] callback runs
    and has left every room when its [disconnect] callback runs.  [io.emit]
    reaches every connected socket, [socket.emit] the socket itself,
    [io.to(room).emit] the members of [room]; the handlers never call
    [join], so a room holds at most the socket it is named after. *)
Definition connected (socks : list string) (sid : string) : bool :=
  existsb (String.eqb sid) socks.

Definition recipients (socks : list string) (e : emit) : list string :=
  match e with
  | IoEmit _ => socks
  | SocketEmit sid _ => if connected socks sid then [sid] else []
  | IoToEmit room _ => if connected socks room then [room] else []
  end.

Definition deliveries (socks : list string) (out : list emit)
  : list (string * message) :=
  flat_map (fun e => map (fun r => (r, emitted e)) (recipients socks e)) out.

Record world : Type := mkWorld {
  sockets : list string;
  srv : server
}.

Definition boot : world := {| sockets := []; srv := initial |}.

Definition without (sid : string) (socks : list string) : list string :=
  filter (fun s => negb (String.eqb s sid)) socks.

(** The sockets of the namespace while the handler of [ev] runs. *)
Definition sockets_during (ev : event) (socks : list string) : list string :=
  match ev with
  | Connect sid => socks ++ [sid]
  | Disconnect sid => without sid socks
  | _ => socks
  end.

(** A socket id is fresh at connection; every other event comes from a
    socket that is connected. *)
Definition enabled (ev : event) (socks : list string) : bool :=
  match ev with
  | Connect sid => negb (connected socks sid)
  | _ => connected socks (sender ev)
  end.

Definition step (ev : event) (w : world)
  : option (world * list (string * message)) :=
  if enabled ev (sockets w) then
    let socks := sockets_during ev (sockets w) in
    let '(_, s, out) := handle ev (srv w) in
    Some ({| sockets := socks; srv := s |}, deliveries socks out)
  else None.

Fixpoint run (evs : list event) (w : world) : option world :=
  match evs with
  | [] => Some w
  | ev :: tl =>
      match step ev w with
      | Some (w', _) => run tl w'
      | None => None
      end
  end.

Definition reachable (w : world) : Prop := exists evs, run evs boot = Some w.

(** Number of registry entries whose role flag is set. *)
Definition bus_count (s : server) : nat :=
  length (filter isBus (Alist.values (connectedUsers s))).

(** The connection the designation refers to: [busUser.id], or none. *)
Definition designated (s : server) : option string := option_map id (busUser s).

(** ** Invariants of the registry and of the designation *)

Ltac unfold_handler :=
  cbv [handle on_connection on_send_location on_set_as_bus on_remove_bus
       on_disconnect bind ret when users_get users_has users_set users_delete
       users_values read_busUser write_busUser send after output].

Ltac proj_simpl := cbn [fst snd connectedUsers busUser srv sockets].

(** Keys are unique, every entry is filed under its own id, and only the
    designated connection can carry the bus flag. *)
Record registry_ok (s : server) : Prop := {
  keys_nodup : NoDup (Alist.keys (connectedUsers s));
  id_is_key : forall k u, Alist.get k (connectedUsers s) = Some u -> id u = k;
  bus_is_designated : forall k u,
    Alist.get k (connectedUsers s) = Some u -> isBus u = true ->
    designated s = Some k
}.

(** What the first half of [set-as-bus] leaves behind: nobody is bus. *)
Definition demote_previous (s : server) : list (string * user) :=
  match busUser s with
  | Some b =>
      match Alist.get (id b) (connectedUsers s) with
      | Some p => Alist.set (id b) (set_isBus p false) (connectedUsers s)
      | None => connectedUsers s
      end
  | None => connectedUsers s
  end.

(** ** Invariants of the server together with its transport *)

(** The registry lists exactly the connected sockets, in connection order,
    and a designation refers to a registered entry whose flag is set. *)
Record world_ok (w : world) : Prop := {
  reg_ok : registry_ok (srv w);
  keys_sockets : Alist.keys (connectedUsers (srv w)) = sockets w;
  designation_ok : forall b, busUser (srv w) = Some b ->
    exists u, Alist.get (id b) (connectedUsers (srv w)) = Some u /\ isBus u = true
}.

(** ** Sample runs *)

Definition world_of (evs : list event) : world :=
  match run evs boot with
  | Some w => w
  | None => boot
  end.

Definition pune : value :=
  VObj [("latitude", VNum 18.5%float); ("longitude", VNum 73.75%float)].

Definition two_riders : world := world_of [Connect "a"; Connect "b"].

Definition bus_and_rider : world :=
  world_of [Connect "a"; Connect "b"; SetAsBus "a"].

Definition moved_bus : world :=
  world_of [Connect "a"; Connect "b"; SetAsBus "a"; SendLocation "a" pune].

(** [data[k]] is a number. *)
Definition has_number (k : string) (data : value) : bool :=
  match Alist.get k (own_properties data) with
  | Some (VNum _) => true
  | _ => false
  end.

(** [user?.isBus || false] for the entry filed under [sid]. *)
Definition role_flag (s : server) (sid : string) : bool :=
  match Alist.get sid (connectedUsers s) with
  | Some u => isBus u
  | None => false
  end.

(** ** Event names *)

(** The name under which each outbound message is emitted. *)
Definition event_name (m : message) : string :=
  match m with
  | UsersList _ _ => "users-list"
  | ReceiveLocation _ => "receive-location"
  | BusStatusChanged _ => "bus-status-changed"
  | BusUserChanged _ _ => "bus-user-changed"
  | UserDisconnected _ => "user-disconnected"
  end.

(** The names the server registers with [socket.on]. *)
Definition server_handles : list string :=
  ["send-location"; "set-as-bus"; "remove-bus"; "disconnect"].

(** The names the browser script passes to [socket.emit] and to
    [socket.on]. *)
Definition client_emits : list string :=
  ["location-update"; "become-bus"; "become-user"].

Definition client_handles : list string :=
  ["connect"; "disconnect"; "reconnect"; "initial-data"; "nearby-buses-update";
   "bus-location-update"; "new-bus-active"; "bus-inactive"; "role-changed";
   "error"; "connect_error"].

(** ** The browser's become-bus button *)

(** A character of [[a-zA-Z0-9]]. *)
Definition is_alnum (c : Ascii.ascii) : bool :=
  let n := Ascii.nat_of_ascii c in
  (Nat.leb 48 n && Nat.leb n 57) || (Nat.leb 65 n && Nat.leb n 90)
  || (Nat.leb 97 n && Nat.leb n 122).

(** [/^[a-zA-Z0-9]{1,10}$/.test(s)].  A character outside ASCII fails the
    class whether the string is read as UTF-16 units or as bytes. *)
Definition bus_number_format (s : string) : bool :=
  Nat.leb 1 (String.length s) && Nat.leb (String.length s) 10
  && forallb is_alnum (list_ascii_of_string s).

(** What a click on the button ends in: [showError(text)], or
    [socket.emit('become-bus', { busNumber, routeId })]. *)
Inductive click : Type :=
| ShowError (text : string)
| EmitBecomeBus (busNumber routeId : string).

Section BecomeBus.
(** [String.prototype.trim], the browser's. *)
Variable trim : string -> string.

(** The click handler of [becomeBusBtn].  [busNumberInput] and
    [routeSelect] are the [value]s of the two form elements, or [None] for
    an element that is not in the page ([?.] then gives [undefined], which
    is falsy like the empty string). *)
Definition become_bus_click (busNumberInput routeSelect : option string) : click :=
  match option_map trim busNumberInput with
  | None => ShowError "Please enter a bus number"
  | Some busNumber =>
      if String.eqb busNumber "" then ShowError "Please enter a bus number"
      else
        match routeSelect with
        | None => ShowError "Please select a route"
        | Some routeId =>
            if String.eqb routeId "" then ShowError "Please select a route"
            else if negb (bus_number_format busNumber) then
              ShowError "Bus number must be 1-10 alphanumeric characters"
            else EmitBecomeBus busNumber routeId
        end
  end.
End BecomeBus.

(** ** Facts about insertion-ordered maps *)

Module AlistFacts.
Section AlistFacts.
Context {V : Type}.
Implicit Types (k : string) (v : V) (l : list (string * V)).

Lemma get_set_same k v l : Alist.get k (Alist.set k v l) = Some v.
Proof.
  induction l as [|[k' v'] tl IH]; simpl.
  - now rewrite String.eqb_refl.
  - destruct (String.eqb_spec k' k) as [E|N]; simpl.
    + now rewrite E, String.eqb_refl.
    + destruct (String.eqb_spec k' k); [contradiction | exact IH].
Qed.

Lemma get_set_other k k' v l :
  k <> k' -> Alist.get k' (Alist.set k v l) = Alist.get k' l.
Proof.
  intros N. induction l as [|[k0 v0] tl IH]; simpl.
  - destruct (String.eqb_spec k k'); [contradiction | reflexivity].
  - destruct (String.eqb_spec k0 k) as [E|N0]; simpl.
    + subst k0. destruct (String.eqb_spec k k'); [contradiction | reflexivity].
    + destruct (String.eqb_spec k0 k'); [reflexivity | exact IH].
Qed.

Lemma get_delete_same k l : Alist.get k (Alist.delete k l) = None.
Proof.
  induction l as [|[k' v'] tl IH]; simpl; [reflexivity|].
  destruct (String.eqb_spec k' k) as [E|N]; [exact IH|]. simpl.
  destruct (String.eqb_spec k' k); [contradiction | exact IH].
Qed.

Lemma get_delete_other k k' l :
  k <> k' -> Alist.get k' (Alist.delete k l) = Alist.get k' l.
Proof.
  intros N. induction l as [|[k0 v0] tl IH]; simpl; [reflexivity|].
  destruct (String.eqb_spec k0 k) as [E|N0]; simpl.
  - subst k0. destruct (String.eqb_spec k k'); [contradiction | exact IH].
  - destruct (String.eqb_spec k0 k'); [reflexivity | exact IH].
Qed.

(** Overwriting an entry with itself changes nothing, position included. *)
Lemma set_get_same k v l : Alist.get k l = Some v -> Alist.set k v l = l.
Proof.
  induction l as [|[k' v'] tl IH]; simpl; [discriminate|].
  destruct (String.eqb_spec k' k) as [E|N]; intros H.
  - now inversion H.
  - now rewrite IH.
Qed.

Lemma set_set k v v' l : Alist.set k v (Alist.set k v' l) = Alist.set k v l.
Proof.
  induction l as [|[k0 v0] tl IH]; simpl.
  - now rewrite String.eqb_refl.
  - destruct (String.eqb_spec k0 k) as [E|N]; simpl.
    + destruct (String.eqb_spec k0 k); [reflexivity | contradiction].
    + destruct (String.eqb_spec k0 k); [contradiction | now rewrite IH].
Qed.

Lemma keys_set_present k v v0 l :
  Alist.get k l = Some v0 -> Alist.keys (Alist.set k v l) = Alist.keys l.
Proof.
  unfold Alist.keys. induction l as [|[k' v'] tl IH]; simpl; [discriminate|].
  destruct (String.eqb_spec k' k); intros H; simpl; [reflexivity|].
  now rewrite IH.
Qed.

Lemma keys_set_absent k v l :
  Alist.get k l = None -> Alist.keys (Alist.set k v l) = Alist.keys l ++ [k].
Proof.
  unfold Alist.keys. induction l as [|[k' v'] tl IH]; simpl; [reflexivity|].
  destruct (String.eqb_spec k' k); intros H; simpl; [discriminate|].
  now rewrite IH.
Qed.

Lemma keys_delete k l :
  Alist.keys (Alist.delete k l)
  = filter (fun s => negb (String.eqb s k)) (Alist.keys l).
Proof.
  unfold Alist.keys. induction l as [|[k' v'] tl IH]; simpl; [reflexivity|].
  destruct (String.eqb_spec k' k); simpl; now rewrite IH.
Qed.

Lemma get_none_iff k l : Alist.get k l = None <-> ~ In k (Alist.keys l).
Proof.
  unfold Alist.keys. induction l as [|[k' v'] tl IH]; simpl.
  - tauto.
  - destruct (String.eqb_spec k' k); split; intros H.
    + discriminate.
    + exfalso. apply H. now left.
    + intros [E|I]; [contradiction | now apply IH in H].
    + apply IH. intros I. apply H. now right.
Qed.

Lemma get_in k v l : Alist.get k l = Some v -> In (k, v) l.
Proof.
  induction l as [|[k' v'] tl IH]; simpl; [discriminate|].
  destruct (String.eqb_spec k' k) as [E|N]; intros H.
  - inversion H. subst. now left.
  - right. now apply IH.
Qed.

Lemma in_get k v l : NoDup (Alist.keys l) -> In (k, v) l -> Alist.get k l = Some v.
Proof.
  unfold Alist.keys. induction l as [|[k' v'] tl IH]; simpl; [contradiction|].
  intros ND [E|I]; inversion ND as [|? ? NI ND']; subst.
  - inversion E. subst. now rewrite String.eqb_refl.
  - destruct (String.eqb_spec k' k) as [E|N]; [|now apply IH].
    subst k'. exfalso. apply NI. change k with (fst (k, v)). now apply in_map.
Qed.

Lemma get_in_values k v l : Alist.get k l = Some v -> In v (Alist.values l).
Proof.
  intros H. apply get_in in H. unfold Alist.values.
  change v with (snd (k, v)). now apply in_map.
Qed.

(** At most one value satisfies [p] when every such value sits under the
    same key. *)
Lemma filter_values_single (p : V -> bool) k0 l :
  NoDup (Alist.keys l) ->
  (forall k v, In (k, v) l -> p v = true -> k = k0) ->
  length (filter p (Alist.values l)) <= 1.
Proof.
  unfold Alist.keys, Alist.values.
  induction l as [|[k v] tl IH]; simpl; intros ND H; [lia|].
  inversion ND as [|? ? NI ND']; subst.
  assert (Htl : forall k' v', In (k', v') tl -> p v' = true -> k' = k0)
    by (intros; eapply H; eauto).
  destruct (p v) eqn:P; [|now apply IH].
  assert (k = k0) by (eapply H; eauto). subst k0.
  assert (E : filter p (map snd tl) = []).
  { clear IH H ND ND'. induction tl as [|[k' v'] tl' IH']; simpl; [reflexivity|].
    destruct (p v') eqn:P'.
    - exfalso. apply NI. left. simpl. eapply Htl; [now left | exact P'].
    - apply IH'.
      + intros I. apply NI. now right.
      + intros k1 v1 I1. apply Htl. now right. }
  rewrite E. simpl. lia.
Qed.

Lemma filter_values_none (p : V -> bool) l :
  (forall k v, In (k, v) l -> p v = false) ->
  filter p (Alist.values l) = [].
Proof.
  unfold Alist.values. induction l as [|[k v] tl IH]; simpl; intros H;
    [reflexivity|].
  rewrite (H k v (or_introl eq_refl)). apply IH. intros; eapply H; eauto.
Qed.
End AlistFacts.
End AlistFacts.

(** ** The registry invariant is preserved *)

Lemma is_bus_socket_true b sid :
  is_bus_socket b sid = true <-> option_map id b = Some sid.
Proof.
  destruct b as [x|]; simpl.
  - destruct (String.eqb_spec (id x) sid); split; intros H; congruence.
  - split; discriminate.
Qed.

Lemma is_bus_socket_false b sid :
  is_bus_socket b sid = false <-> option_map id b <> Some sid.
Proof.
  rewrite <- is_bus_socket_true. destruct (is_bus_socket b sid); split; congruence.
Qed.

Lemma nodup_set {V : Type} k (v : V) l :
  NoDup (Alist.keys l) -> NoDup (Alist.keys (Alist.set k v l)).
Proof.
  intros ND. destruct (Alist.get k l) eqn:G.
  - now rewrite (AlistFacts.keys_set_present k v v0 l G).
  - rewrite (AlistFacts.keys_set_absent k v l G).
    apply NoDup_app; [exact ND | repeat constructor; simpl; tauto |].
    intros x Hx [E|[]]. subst x. apply AlistFacts.get_none_iff in G. tauto.
Qed.

Lemma nodup_delete {V : Type} k (l : list (string * V)) :
  NoDup (Alist.keys l) -> NoDup (Alist.keys (Alist.delete k l)).
Proof. intros ND. rewrite AlistFacts.keys_delete. now apply NoDup_filter. Qed.

Lemma initial_ok : registry_ok initial.
Proof. split; simpl; [constructor | discriminate | discriminate]. Qed.

Lemma demote_previous_get s k :
  registry_ok s ->
  Alist.get k (demote_previous s)
  = option_map (fun u => set_isBus u false) (Alist.get k (connectedUsers s))
  \/ (Alist.get k (demote_previous s) = Alist.get k (connectedUsers s)
      /\ forall u, Alist.get k (connectedUsers s) = Some u -> isBus u = false).
Proof.
  intros OK. unfold demote_previous.
  assert (NB : forall b, busUser s = Some b -> id b <> k ->
               forall u, Alist.get k (connectedUsers s) = Some u -> isBus u = false).
  { intros b Hb N u G. destruct (isBus u) eqn:B; [|reflexivity].
    pose proof (bus_is_designated s OK k u G B) as D.
    unfold designated in D. rewrite Hb in D. simpl in D. congruence. }
  destruct (busUser s) as [b|] eqn:Hb.
  - destruct (Alist.get (id b) (connectedUsers s)) as [p|] eqn:Gp.
    + destruct (string_dec (id b) k) as [E|N].
      * left. subst k. now rewrite AlistFacts.get_set_same, Gp.
      * right. split; [now apply AlistFacts.get_set_other | eauto].
    + right. split; [reflexivity|]. intros u G.
      destruct (string_dec (id b) k) as [E|N]; [congruence | eauto].
  - right. split; [reflexivity|]. intros u G.
    destruct (isBus u) eqn:B; [|reflexivity].
    pose proof (bus_is_designated s OK k u G B) as D.
    unfold designated in D. rewrite Hb in D. discriminate.
Qed.

Lemma demote_previous_flag s k u :
  registry_ok s -> Alist.get k (demote_previous s) = Some u -> isBus u = false.
Proof.
  intros OK G. destruct (demote_previous_get s k OK) as [E|[E F]].
  - rewrite E in G. destruct (Alist.get k (connectedUsers s)); inversion G.
    reflexivity.
  - rewrite E in G. eauto.
Qed.

Lemma demote_previous_id s k u :
  registry_ok s -> Alist.get k (demote_previous s) = Some u -> id u = k.
Proof.
  intros OK G. destruct (demote_previous_get s k OK) as [E|[E F]]; rewrite E in G.
  - destruct (Alist.get k (connectedUsers s)) as [u0|] eqn:G0; inversion G.
    simpl. eapply id_is_key; eauto.
  - eapply id_is_key; eauto.
Qed.

Lemma demote_previous_keys s :
  Alist.keys (demote_previous s) = Alist.keys (connectedUsers s).
Proof.
  unfold demote_previous. destruct (busUser s) as [b|]; [|reflexivity].
  destruct (Alist.get (id b) (connectedUsers s)) eqn:G; [|reflexivity].
  eapply AlistFacts.keys_set_present; eauto.
Qed.

(** The shape of the state and of the log after [set-as-bus]. *)
Lemma on_set_as_bus_unfold sid s :
  on_set_as_bus sid s =
  let reg := demote_previous s in
  let notice :=
    match busUser s with
    | Some b => if Alist.has (id b) (connectedUsers s)
                then [IoToEmit (id b) (BusStatusChanged false)] else []
    | None => []
    end in
  match Alist.get sid reg with
  | Some u =>
      let u' := set_isBus u true in
      (tt, {| connectedUsers := Alist.set sid u' reg;
              busUser := Some (bus_snapshot sid u') |},
       notice ++ [SocketEmit sid (BusStatusChanged true);
                  IoEmit (BusUserChanged (Some sid) (Some (bus_snapshot sid u')))])
  | None => (tt, {| connectedUsers := reg; busUser := busUser s |}, notice ++ [])
  end.
Proof.
  destruct s as [reg bu]. unfold demote_previous. unfold_handler.
  unfold Alist.has. cbn [connectedUsers busUser].
  destruct bu as [b|]; cbn [connectedUsers busUser].
  - destruct (Alist.get (id b) reg) as [p|] eqn:Gp; cbn [connectedUsers busUser].
    + rewrite ?Gp. cbn [connectedUsers busUser app].
      destruct (Alist.get sid (Alist.set (id b) (set_isBus p false) reg));
        reflexivity.
    + destruct (Alist.get sid reg); reflexivity.
  - destruct (Alist.get sid reg); reflexivity.
Qed.

Lemma on_connection_unfold sid s :
  on_connection sid s =
  let reg := Alist.set sid {| id := sid; isBus := false; location := VNull |}
               (connectedUsers s) in
  (tt, {| connectedUsers := reg; busUser := busUser s |},
   [SocketEmit sid (UsersList (Alist.values reg) (busUser s))]).
Proof. reflexivity. Qed.

Lemma on_send_location_unfold sid data s :
  on_send_location sid data s =
  match Alist.get sid (connectedUsers s) with
  | Some u =>
      (tt, {| connectedUsers := Alist.set sid (set_location u data) (connectedUsers s);
              busUser := busUser s |},
       [IoEmit (ReceiveLocation
          (spread [("id", VStr sid); ("isBus", VBool (isBus u))]
                  (own_properties data)))])
  | None =>
      (tt, s,
       [IoEmit (ReceiveLocation
          (spread [("id", VStr sid); ("isBus", VBool false)]
                  (own_properties data)))])
  end.
Proof.
  unfold_handler. destruct (Alist.get sid (connectedUsers s)) as [u|]; simpl.
  - now rewrite orb_false_r.
  - reflexivity.
Qed.

Lemma on_remove_bus_unfold sid s :
  on_remove_bus sid s =
  if is_bus_socket (busUser s) sid then
    (tt, {| connectedUsers :=
              match Alist.get sid (connectedUsers s) with
              | Some u => Alist.set sid (set_isBus u false) (connectedUsers s)
              | None => connectedUsers s
              end;
            busUser := None |},
     [IoEmit (BusUserChanged None None); SocketEmit sid (BusStatusChanged false)])
  else (tt, s, []).
Proof.
  unfold_handler. destruct (is_bus_socket (busUser s) sid); [|reflexivity].
  destruct (Alist.get sid (connectedUsers s)); reflexivity.
Qed.

Lemma on_disconnect_unfold sid s :
  on_disconnect sid s =
  if is_bus_socket (busUser s) sid then
    (tt, {| connectedUsers := Alist.delete sid (connectedUsers s); busUser := None |},
     [IoEmit (BusUserChanged None None); IoEmit (UserDisconnected sid)])
  else
    (tt, {| connectedUsers := Alist.delete sid (connectedUsers s);
            busUser := busUser s |},
     [IoEmit (UserDisconnected sid)]).
Proof.
  unfold_handler. destruct (is_bus_socket (busUser s) sid); reflexivity.
Qed.

(** Every handler preserves [registry_ok], whichever socket id it runs for. *)
Lemma on_connection_ok sid s :
  registry_ok s -> registry_ok (after (on_connection sid) s).
Proof.
  intros OK. unfold after. rewrite on_connection_unfold. cbn.
  split; cbn [connectedUsers busUser designated].
  - apply nodup_set, OK.
  - intros k u G. destruct (string_dec sid k) as [E|N].
    + subst k. rewrite AlistFacts.get_set_same in G. now inversion G.
    + rewrite AlistFacts.get_set_other in G by exact N. eapply id_is_key; eauto.
  - intros k u G B. destruct (string_dec sid k) as [E|N].
    + subst k. rewrite AlistFacts.get_set_same in G. inversion G. subst u.
      discriminate.
    + rewrite AlistFacts.get_set_other in G by exact N.
      eapply (bus_is_designated s OK); eauto.
Qed.

Lemma on_send_location_ok sid data s :
  registry_ok s -> registry_ok (after (on_send_location sid data) s).
Proof.
  intros OK. unfold after. rewrite on_send_location_unfold.
  destruct (Alist.get sid (connectedUsers s)) as [u0|] eqn:G0; [|exact OK].
  cbn. split; cbn [connectedUsers busUser designated].
  - apply nodup_set, OK.
  - intros k u G. destruct (string_dec sid k) as [E|N].
    + subst k. rewrite AlistFacts.get_set_same in G. inversion G. simpl.
      eapply id_is_key; eauto.
    + rewrite AlistFacts.get_set_other in G by exact N. eapply id_is_key; eauto.
  - intros k u G B. destruct (string_dec sid k) as [E|N].
    + subst k. rewrite AlistFacts.get_set_same in G. inversion G. subst u.
      eapply (bus_is_designated s OK); eauto.
    + rewrite AlistFacts.get_set_other in G by exact N.
      eapply (bus_is_designated s OK); eauto.
Qed.

Lemma on_set_as_bus_ok sid s :
  registry_ok s -> registry_ok (after (on_set_as_bus sid) s).
Proof.
  intros OK. unfold after. rewrite on_set_as_bus_unfold. cbv zeta.
  assert (ND : NoDup (Alist.keys (demote_previous s)))
    by (rewrite demote_previous_keys; apply OK).
  destruct (Alist.get sid (demote_previous s)) as [u0|] eqn:G0; cbn.
  - split; cbn [connectedUsers busUser designated option_map bus_snapshot id].
    + now apply nodup_set.
    + intros k u G. destruct (string_dec sid k) as [E|N].
      * subst k. rewrite AlistFacts.get_set_same in G. inversion G. simpl.
        eapply demote_previous_id; eauto.
      * rewrite AlistFacts.get_set_other in G by exact N.
        eapply demote_previous_id; eauto.
    + intros k u G B. destruct (string_dec sid k) as [E|N].
      * subst k. f_equal. exact (demote_previous_id s sid u0 OK G0).
      * rewrite AlistFacts.get_set_other in G by exact N.
        rewrite (demote_previous_flag s k u OK G) in B. discriminate.
  - split; cbn [connectedUsers busUser designated].
    + exact ND.
    + intros k u G. eapply demote_previous_id; eauto.
    + intros k u G B. rewrite (demote_previous_flag s k u OK G) in B. discriminate.
Qed.

Lemma on_remove_bus_ok sid s :
  registry_ok s -> registry_ok (after (on_remove_bus sid) s).
Proof.
  intros OK. unfold after. rewrite on_remove_bus_unfold.
  destruct (is_bus_socket (busUser s) sid) eqn:IB; [|exact OK].
  apply is_bus_socket_true in IB. cbn.
  destruct (Alist.get sid (connectedUsers s)) as [u0|] eqn:G0;
    split; cbn [connectedUsers busUser designated option_map].
  - apply nodup_set, OK.
  - intros k u G. destruct (string_dec sid k) as [E|N].
    + subst k. rewrite AlistFacts.get_set_same in G. inversion G. simpl.
      eapply id_is_key; eauto.
    + rewrite AlistFacts.get_set_other in G by exact N. eapply id_is_key; eauto.
  - intros k u G B. exfalso. destruct (string_dec sid k) as [E|N].
    + subst k. rewrite AlistFacts.get_set_same in G. inversion G. subst u.
      discriminate.
    + rewrite AlistFacts.get_set_other in G by exact N.
      pose proof (bus_is_designated s OK k u G B) as D.
      unfold designated in D. congruence.
  - apply OK.
  - apply OK.
  - intros k u G B. exfalso.
    pose proof (bus_is_designated s OK k u G B) as D.
    unfold designated in D. congruence.
Qed.

Lemma on_disconnect_ok sid s :
  registry_ok s -> registry_ok (after (on_disconnect sid) s).
Proof.
  intros OK. unfold after. rewrite on_disconnect_unfold.
  assert (GD : forall k u, Alist.get k (Alist.delete sid (connectedUsers s)) = Some u ->
               sid <> k /\ Alist.get k (connectedUsers s) = Some u).
  { intros k u G. destruct (string_dec sid k) as [E|N].
    - subst k. rewrite AlistFacts.get_delete_same in G. discriminate.
    - rewrite AlistFacts.get_delete_other in G by exact N. now split. }
  destruct (is_bus_socket (busUser s) sid) eqn:IB; cbn;
    split; cbn [connectedUsers busUser designated option_map];
    try (apply nodup_delete, OK);
    try (intros k u G; apply GD in G; destruct G as [N G]; eapply id_is_key; eauto).
  - intros k u G B. exfalso. apply GD in G. destruct G as [N G].
    apply is_bus_socket_true in IB.
    pose proof (bus_is_designated s OK k u G B) as D.
    unfold designated in D. congruence.
  - intros k u G B. apply GD in G. destruct G as [N G].
    eapply (bus_is_designated s OK); eauto.
Qed.

Lemma handle_ok ev s : registry_ok s -> registry_ok (after (handle ev) s).
Proof.
  destruct ev; simpl;
    auto using on_connection_ok, on_send_location_ok, on_set_as_bus_ok,
               on_remove_bus_ok, on_disconnect_ok.
Qed.

Lemma exec_ok evs : forall s, registry_ok s -> registry_ok (exec evs s).
Proof.
  unfold exec. induction evs as [|ev tl IH]; simpl; intros s OK; [exact OK|].
  apply IH, handle_ok, OK.
Qed.

Lemma registry_ok_bus_count s : registry_ok s -> bus_count s <= 1.
Proof.
  intros OK. unfold bus_count.
  destruct (designated s) as [k0|] eqn:D.
  - apply AlistFacts.filter_values_single with (k0 := k0); [apply OK|].
    intros k u I B. apply AlistFacts.in_get in I; [|apply OK].
    pose proof (bus_is_designated s OK k u I B). congruence.
  - rewrite AlistFacts.filter_values_none; [simpl; lia|].
    intros k u I. apply AlistFacts.in_get in I; [|apply OK].
    destruct (isBus u) eqn:B; [|reflexivity].
    pose proof (bus_is_designated s OK k u I B). congruence.
Qed.

(** ** The transport invariant is preserved *)

Lemma connected_iff socks sid : connected socks sid = true <-> In sid socks.
Proof.
  unfold connected. rewrite existsb_exists. split.
  - intros [x [I E]]. apply String.eqb_eq in E. now subst.
  - intros I. exists sid. split; [exact I | apply String.eqb_refl].
Qed.

Lemma connected_false_iff socks sid : connected socks sid = false <-> ~ In sid socks.
Proof.
  rewrite <- connected_iff. destruct (connected socks sid); split; congruence.
Qed.

Lemma registered_of_connected w sid :
  world_ok w -> connected (sockets w) sid = true ->
  exists u, Alist.get sid (connectedUsers (srv w)) = Some u.
Proof.
  intros OK C. apply connected_iff in C. rewrite <- (keys_sockets w OK) in C.
  destruct (Alist.get sid (connectedUsers (srv w))) as [u|] eqn:G; [eauto|].
  apply AlistFacts.get_none_iff in G. contradiction.
Qed.

Lemma connected_of_registered w sid u :
  world_ok w -> Alist.get sid (connectedUsers (srv w)) = Some u ->
  connected (sockets w) sid = true.
Proof.
  intros OK G. apply connected_iff. rewrite <- (keys_sockets w OK).
  destruct (in_dec string_dec sid (Alist.keys (connectedUsers (srv w)))) as [I|NI];
    [exact I|].
  apply AlistFacts.get_none_iff in NI. congruence.
Qed.

Lemma boot_ok : world_ok boot.
Proof. split; simpl; [exact initial_ok | reflexivity | discriminate]. Qed.

Lemma step_unfold ev w :
  step ev w =
  if enabled ev (sockets w) then
    Some ({| sockets := sockets_during ev (sockets w);
             srv := after (handle ev) (srv w) |},
          deliveries (sockets_during ev (sockets w)) (output (handle ev) (srv w)))
  else None.
Proof.
  unfold step, after, output. destruct (enabled ev (sockets w)); [|reflexivity].
  destruct (handle ev (srv w)) as [[[] s] out]. reflexivity.
Qed.

Lemma step_ok ev w w' ds : world_ok w -> step ev w = Some (w', ds) -> world_ok w'.
Proof.
  intros OK. rewrite step_unfold.
  destruct (enabled ev (sockets w)) eqn:EN; [|discriminate].
  intros H. inversion H; subst w' ds; clear H.
  pose proof (handle_ok ev (srv w) (reg_ok w OK)) as ROK.
  split; cbn [srv sockets]; [exact ROK | |].
  - (* registry keys follow the sockets *)
    destruct ev as [sid|sid data|sid|sid|sid]; cbn [handle sockets_during enabled sender] in *;
      unfold after.
    + rewrite on_connection_unfold. proj_simpl.
      apply negb_true_iff, connected_false_iff in EN.
      rewrite <- (keys_sockets w OK) in EN. apply AlistFacts.get_none_iff in EN.
      rewrite (AlistFacts.keys_set_absent _ _ _ EN). now rewrite (keys_sockets w OK).
    + rewrite on_send_location_unfold.
      destruct (Alist.get sid (connectedUsers (srv w))) eqn:G; proj_simpl; [|apply OK].
      rewrite (AlistFacts.keys_set_present _ _ _ _ G). apply OK.
    + rewrite on_set_as_bus_unfold. cbv zeta.
      destruct (Alist.get sid (demote_previous (srv w))) eqn:G; proj_simpl.
      * rewrite (AlistFacts.keys_set_present _ _ _ _ G), demote_previous_keys.
        apply OK.
      * rewrite demote_previous_keys. apply OK.
    + rewrite on_remove_bus_unfold.
      destruct (is_bus_socket (busUser (srv w)) sid); proj_simpl; [|apply OK].
      destruct (Alist.get sid (connectedUsers (srv w))) eqn:G; [|apply OK].
      rewrite (AlistFacts.keys_set_present _ _ _ _ G). apply OK.
    + rewrite on_disconnect_unfold.
      destruct (is_bus_socket (busUser (srv w)) sid); proj_simpl;
        rewrite AlistFacts.keys_delete, (keys_sockets w OK); reflexivity.
  - (* the designation refers to a registered bus *)
    destruct ev as [sid|sid data|sid|sid|sid]; cbn [handle sockets_during enabled sender] in *;
      unfold after.
    + rewrite on_connection_unfold. proj_simpl. intros b Hb.
      destruct (designation_ok w OK b Hb) as [u [G B]].
      exists u. split; [|exact B].
      rewrite AlistFacts.get_set_other; [exact G|].
      intros E. apply negb_true_iff in EN. rewrite E in EN.
      rewrite (connected_of_registered w (id b) u OK G) in EN; discriminate.
    + rewrite on_send_location_unfold.
      destruct (Alist.get sid (connectedUsers (srv w))) as [u0|] eqn:G0; proj_simpl;
        [|apply OK].
      intros b Hb. destruct (designation_ok w OK b Hb) as [u [G B]].
      destruct (string_dec sid (id b)) as [E|N].
      * rewrite <- E in *. rewrite AlistFacts.get_set_same.
        exists (set_location u0 data). split; [reflexivity|]. simpl. congruence.
      * rewrite AlistFacts.get_set_other by exact N. eauto.
    + rewrite on_set_as_bus_unfold. cbv zeta.
      destruct (registered_of_connected w sid OK EN) as [u0 G0].
      assert (I : In sid (Alist.keys (demote_previous (srv w)))).
      { rewrite demote_previous_keys, (keys_sockets w OK).
        now apply connected_iff. }
      destruct (Alist.get sid (demote_previous (srv w))) as [u1|] eqn:G1.
      * proj_simpl. intros b Hb. inversion Hb; subst b.
        cbn [id bus_snapshot set_isBus].
        rewrite (demote_previous_id (srv w) sid u1 (reg_ok w OK) G1).
        rewrite AlistFacts.get_set_same. eauto.
      * apply AlistFacts.get_none_iff in G1. contradiction.
    + rewrite on_remove_bus_unfold.
      destruct (is_bus_socket (busUser (srv w)) sid); proj_simpl; [discriminate|apply OK].
    + rewrite on_disconnect_unfold.
      destruct (is_bus_socket (busUser (srv w)) sid) eqn:IB; proj_simpl; [discriminate|].
      intros b Hb. destruct (designation_ok w OK b Hb) as [u [G B]].
      apply is_bus_socket_false in IB. rewrite Hb in IB. simpl in IB.
      exists u. split; [|exact B].
      rewrite AlistFacts.get_delete_other; [exact G | congruence].
Qed.

Lemma run_ok evs : forall w w', world_ok w -> run evs w = Some w' -> world_ok w'.
Proof.
  induction evs as [|ev tl IH]; simpl; intros w w' OK H.
  - inversion H. now subst.
  - destruct (step ev w) as [[w1 ds]|] eqn:S; [|discriminate].
    eapply IH; [eapply step_ok; eauto | exact H].
Qed.

Lemma reachable_ok w : reachable w -> world_ok w.
Proof. intros [evs H]. eapply run_ok; [exact boot_ok | exact H]. Qed.

Lemma nodup_sockets w : world_ok w -> NoDup (sockets w).
Proof. intros OK. rewrite <- (keys_sockets w OK). apply OK. Qed.

(** ** Delivery *)

Lemma deliveries_io_emit socks out m c :
  In (IoEmit m) out -> In c socks -> In (c, m) (deliveries socks out).
Proof.
  intros I C. unfold deliveries. apply in_flat_map.
  exists (IoEmit m). split; [exact I|]. simpl.
  change (c, m) with ((fun r => (r, m)) c). now apply in_map.
Qed.

Lemma deliveries_io_to socks out m room :
  In (IoToEmit room m) out -> connected socks room = true ->
  In (room, m) (deliveries socks out).
Proof.
  intros I C. unfold deliveries. apply in_flat_map.
  exists (IoToEmit room m). split; [exact I|]. simpl. rewrite C. now left.
Qed.

Lemma deliveries_cons socks e out :
  deliveries socks (e :: out)
  = map (fun r => (r, emitted e)) (recipients socks e) ++ deliveries socks out.
Proof. reflexivity. Qed.

Lemma deliveries_nil socks : deliveries socks [] = [].
Proof. reflexivity. Qed.

Lemma in_without sid socks c :
  In c (without sid socks) <-> In c socks /\ c <> sid.
Proof.
  unfold without. rewrite filter_In.
  destruct (String.eqb_spec c sid); simpl; split; intros [I H]; split;
    try exact I; try congruence; try reflexivity.
Qed.

(** ** Reading the properties of a spread object *)

Lemma insert_by_index_perm n kv l :
  Permutation (map snd (insert_by_index n kv l)) (kv :: map snd l).
Proof.
  induction l as [|[m kv'] tl IH]; simpl; [apply Permutation_refl|].
  destruct (N.ltb n m); simpl; [apply Permutation_refl|].
  eapply Permutation_trans; [apply perm_skip, IH | apply perm_swap].
Qed.

(** Listing the properties in order loses and adds none. *)
Lemma property_order_perm o : Permutation (property_order o) o.
Proof.
  unfold property_order, index_properties, named_property.
  induction o as [|kv tl IH]; simpl; [apply Permutation_refl|].
  destruct (array_index (fst kv)) as [n|].
  - eapply Permutation_trans;
      [apply Permutation_app_tail, insert_by_index_perm|].
    simpl. now apply perm_skip.
  - eapply Permutation_trans; [apply Permutation_sym, Permutation_middle|].
    now apply perm_skip.
Qed.

Lemma get_perm k (l l' : list (string * value)) :
  NoDup (Alist.keys l) -> Permutation l l' -> Alist.get k l = Alist.get k l'.
Proof.
  intros ND P.
  assert (ND' : NoDup (Alist.keys l')).
  { unfold Alist.keys in *. eapply Permutation_NoDup; [|exact ND].
    now apply Permutation_map. }
  destruct (Alist.get k l) as [v|] eqn:G.
  - symmetry. apply AlistFacts.in_get; [exact ND'|].
    eapply Permutation_in; [exact P|]. now apply AlistFacts.get_in.
  - destruct (Alist.get k l') as [v'|] eqn:G'; [|reflexivity].
    apply AlistFacts.get_in in G'.
    apply (Permutation_in _ (Permutation_sym P)) in G'.
    apply (AlistFacts.in_get _ _ _ ND) in G'. congruence.
Qed.

Lemma nodup_assign props : forall o : list (string * value),
  NoDup (Alist.keys o) ->
  NoDup (Alist.keys
           (fold_left (fun acc kv => Alist.set (fst kv) (snd kv) acc) props o)).
Proof.
  induction props as [|kv tl IH]; simpl; intros o ND; [exact ND|].
  apply IH. now apply nodup_set.
Qed.

Lemma get_assign k props : forall o : list (string * value),
  NoDup (Alist.keys props) ->
  Alist.get k (fold_left (fun acc kv => Alist.set (fst kv) (snd kv) acc) props o)
  = match Alist.get k props with
    | Some v => Some v
    | None => Alist.get k o
    end.
Proof.
  unfold Alist.keys.
  induction props as [|[k0 v0] tl IH]; simpl; intros o ND; [reflexivity|].
  inversion ND as [|? ? NI ND']; subst. rewrite IH by exact ND'.
  destruct (String.eqb_spec k0 k) as [E|N].
  - subst k0. apply AlistFacts.get_none_iff in NI. rewrite NI.
    apply AlistFacts.get_set_same.
  - destruct (Alist.get k tl); [reflexivity|].
    now apply AlistFacts.get_set_other.
Qed.

Lemma get_spread k o props :
  NoDup (Alist.keys o) ->
  NoDup (Alist.keys props) ->
  Alist.get k (spread o props)
  = match Alist.get k props with
    | Some v => Some v
    | None => Alist.get k o
    end.
Proof.
  intros NDo NDp. unfold spread.
  rewrite <- (get_perm k _ _ (nodup_assign props o NDo)
             (Permutation_sym (property_order_perm _))).
  now apply get_assign.
Qed.

Lemma nodup_id_isBus (a b : value) : NoDup (Alist.keys [("id", a); ("isBus", b)]).
Proof. repeat constructor; simpl; intuition discriminate. Qed.

(** ** Sample runs are reachable *)

Lemma two_riders_reachable : reachable two_riders.
Proof. exists [Connect "a"; Connect "b"]. reflexivity. Qed.

Lemma bus_and_rider_reachable : reachable bus_and_rider.
Proof. exists [Connect "a"; Connect "b"; SetAsBus "a"]. reflexivity. Qed.

Lemma moved_bus_reachable : reachable moved_bus.
Proof.
  exists [Connect "a"; Connect "b"; SetAsBus "a"; SendLocation "a" pune].
  reflexivity.
Qed.

(** ** Location reports *)

(** C1, as the code has it: the handler uses [io.emit], so the one
    [receive-location] event of a report is delivered to every connected
    socket, the reporting socket included. *)
Theorem location_report_reaches_every_socket w sid data w' ds :
  step (SendLocation sid data) w = Some (w', ds) ->
  exists payload,
    ds = map (fun c => (c, ReceiveLocation payload)) (sockets w)
    /\ In (sid, ReceiveLocation payload) ds.
Proof.
  rewrite step_unfold. cbn [enabled sender sockets_during handle].
  destruct (connected (sockets w) sid) eqn:C; [|discriminate].
  intros H. inversion H; subst w' ds; clear H.
  unfold output. rewrite on_send_location_unfold.
  apply connected_iff in C.
  destruct (Alist.get sid (connectedUsers (srv w))) as [u|];
    eexists; (split; [unfold deliveries; simpl; now rewrite app_nil_r|]);
    simpl; rewrite app_nil_r;
    match goal with
    | |- In (_, ?m) _ => change (sid, m) with ((fun r => (r, m)) sid)
    end; now apply in_map.
Qed.

Lemma location_report_reaches_every_socket_witness :
  exists payload,
    snd (match step (SendLocation "a" pune) two_riders with
         | Some r => r
         | None => (boot, [])
         end)
    = map (fun c => (c, ReceiveLocation payload)) (sockets two_riders)
    /\ In ("a", ReceiveLocation payload)
          (snd (match step (SendLocation "a" pune) two_riders with
                | Some r => r
                | None => (boot, [])
                end)).
Proof.
  apply (location_report_reaches_every_socket two_riders "a" pune
           (fst (match step (SendLocation "a" pune) two_riders with
                 | Some r => r
                 | None => (boot, [])
                 end))).
  reflexivity.
Defined.

(** C1, as stated, fails: with sockets [a] and [b] connected, the report of
    [a] is delivered to [a] itself as well as to [b]. *)
Lemma reporter_receives_own_location :
  reachable two_riders /\
  exists w',
    step (SendLocation "a" pune) two_riders
    = Some (w',
            [("a", ReceiveLocation [("id", VStr "a"); ("isBus", VBool false);
                                    ("latitude", VNum 18.5%float);
                                    ("longitude", VNum 73.75%float)]);
             ("b", ReceiveLocation [("id", VStr "a"); ("isBus", VBool false);
                                    ("latitude", VNum 18.5%float);
                                    ("longitude", VNum 73.75%float)])]).
Proof. split; [exact two_riders_reachable|]. eexists. reflexivity. Qed.

(** C6, as the code has it: the handler does not look at the payload.  For
    a registered sender, whatever the payload, the entry's location becomes
    the payload and nothing else in the state changes; one [receive-location]
    goes out through [io.emit], to every connected socket.  Its object is
    [{ id, isBus, ...data }]: it has every own property of the payload,
    and the sender's id and role flag under [id] and [isBus] only where the
    payload has no property of that name. *)
Theorem report_applied_whatever_payload s sid data u :
  Alist.get sid (connectedUsers s) = Some u ->
  Alist.get sid (connectedUsers (after (on_send_location sid data) s))
  = Some (set_location u data)
  /\ busUser (after (on_send_location sid data) s) = busUser s
  /\ output (on_send_location sid data) s
     = [IoEmit (ReceiveLocation
          (spread [("id", VStr sid); ("isBus", VBool (isBus u))]
                  (own_properties data)))]
  /\ after (on_send_location sid data) s
     = {| connectedUsers := Alist.set sid (set_location u data) (connectedUsers s);
          busUser := busUser s |}
  /\ (forall socks,
        deliveries socks (output (on_send_location sid data) s)
        = map (fun c => (c, ReceiveLocation
                 (spread [("id", VStr sid); ("isBus", VBool (isBus u))]
                         (own_properties data)))) socks)
  /\ (NoDup (Alist.keys (own_properties data)) ->
      forall k,
        Alist.get k (spread [("id", VStr sid); ("isBus", VBool (isBus u))]
                            (own_properties data))
        = match Alist.get k (own_properties data) with
          | Some v => Some v
          | None =>
              if String.eqb "id" k then Some (VStr sid)
              else if String.eqb "isBus" k then Some (VBool (isBus u))
              else None
          end).
Proof.
  intros G. unfold after, output. rewrite on_send_location_unfold, G.
  proj_simpl. rewrite AlistFacts.get_set_same.
  split; [reflexivity|]. split; [reflexivity|]. split; [reflexivity|].
  split; [reflexivity|]. split.
  - intros socks. now rewrite deliveries_cons, deliveries_nil, app_nil_r.
  - intros ND k. now rewrite (get_spread k _ _ (nodup_id_isBus _ _) ND).
Qed.

Lemma report_applied_whatever_payload_witness :
  let data := VObj [("isBus", VBool true); ("lat", VStr "north")] in
  let u := {| id := "a"; isBus := false; location := VNull |} in
  Alist.get "a" (connectedUsers (after (on_send_location "a" data) (srv two_riders)))
  = Some (set_location u data)
  /\ busUser (after (on_send_location "a" data) (srv two_riders))
     = busUser (srv two_riders)
  /\ output (on_send_location "a" data) (srv two_riders)
     = [IoEmit (ReceiveLocation
          (spread [("id", VStr "a"); ("isBus", VBool (isBus u))]
                  (own_properties data)))]
  /\ after (on_send_location "a" data) (srv two_riders)
     = {| connectedUsers :=
            Alist.set "a" (set_location u data) (connectedUsers (srv two_riders));
          busUser := busUser (srv two_riders) |}
  /\ (forall socks,
        deliveries socks (output (on_send_location "a" data) (srv two_riders))
        = map (fun c => (c, ReceiveLocation
                 (spread [("id", VStr "a"); ("isBus", VBool (isBus u))]
                         (own_properties data)))) socks)
  /\ (NoDup (Alist.keys (own_properties data)) ->
      forall k,
        Alist.get k (spread [("id", VStr "a"); ("isBus", VBool (isBus u))]
                            (own_properties data))
        = match Alist.get k (own_properties data) with
          | Some v => Some v
          | None =>
              if String.eqb "id" k then Some (VStr "a")
              else if String.eqb "isBus" k then Some (VBool (isBus u))
              else None
          end).
Proof.
  cbv zeta.
  apply (report_applied_whatever_payload (srv two_riders) "a"
           (VObj [("isBus", VBool true); ("lat", VStr "north")])
           {| id := "a"; isBus := false; location := VNull |}).
  reflexivity.
Defined.

(** C6, as stated, fails: in a reachable state, a report whose payload has
    not a single numeric property is stored as the sender's location and
    delivered to both connected sockets. *)
Lemma malformed_report_is_applied :
  let data := VObj [("lat", VStr "north")] in
  (forall k, has_number k data = false)
  /\ reachable two_riders
  /\ Alist.get "a" (connectedUsers (srv two_riders))
     = Some {| id := "a"; isBus := false; location := VNull |}
  /\ exists w',
       step (SendLocation "a" data) two_riders
       = Some (w',
               [("a", ReceiveLocation [("id", VStr "a"); ("isBus", VBool false);
                                       ("lat", VStr "north")]);
                ("b", ReceiveLocation [("id", VStr "a"); ("isBus", VBool false);
                                       ("lat", VStr "north")])])
       /\ Alist.get "a" (connectedUsers (srv w'))
          = Some {| id := "a"; isBus := false; location := data |}.
Proof.
  cbv zeta. split; [|split; [exact two_riders_reachable|split; [reflexivity|]]].
  - intros k. unfold has_number, own_properties, Alist.get.
    destruct (String.eqb "lat" k); reflexivity.
  - eexists. split; reflexivity.
Qed.

(** X20: [send-location] run under an id that has no registry entry
    leaves registry and designation as they are and still emits one
    [receive-location] through [io.emit], to every connected socket; its
    object is [{ id, isBus: false, ...data }], so the id and the [false]
    are there only under the names the payload leaves free. *)
Theorem unknown_sender_report_still_broadcast s sid data :
  Alist.get sid (connectedUsers s) = None ->
  after (on_send_location sid data) s = s
  /\ output (on_send_location sid data) s
     = [IoEmit (ReceiveLocation
          (spread [("id", VStr sid); ("isBus", VBool false)]
                  (own_properties data)))]
  /\ (forall socks,
        deliveries socks (output (on_send_location sid data) s)
        = map (fun c => (c, ReceiveLocation
                 (spread [("id", VStr sid); ("isBus", VBool false)]
                         (own_properties data)))) socks)
  /\ (NoDup (Alist.keys (own_properties data)) ->
      forall k,
        Alist.get k (spread [("id", VStr sid); ("isBus", VBool false)]
                            (own_properties data))
        = match Alist.get k (own_properties data) with
          | Some v => Some v
          | None =>
              if String.eqb "id" k then Some (VStr sid)
              else if String.eqb "isBus" k then Some (VBool false)
              else None
          end).
Proof.
  intros G. unfold after, output. rewrite on_send_location_unfold, G.
  proj_simpl. split; [reflexivity|]. split; [reflexivity|]. split.
  - intros socks. now rewrite deliveries_cons, deliveries_nil, app_nil_r.
  - intros ND k. now rewrite (get_spread k _ _ (nodup_id_isBus _ _) ND).
Qed.

Lemma unknown_sender_report_still_broadcast_witness :
  after (on_send_location "z" pune) (srv two_riders) = srv two_riders
  /\ output (on_send_location "z" pune) (srv two_riders)
     = [IoEmit (ReceiveLocation
          (spread [("id", VStr "z"); ("isBus", VBool false)]
                  (own_properties pune)))]
  /\ (forall socks,
        deliveries socks (output (on_send_location "z" pune) (srv two_riders))
        = map (fun c => (c, ReceiveLocation
                 (spread [("id", VStr "z"); ("isBus", VBool false)]
                         (own_properties pune)))) socks)
  /\ (NoDup (Alist.keys (own_properties pune)) ->
      forall k,
        Alist.get k (spread [("id", VStr "z"); ("isBus", VBool false)]
                            (own_properties pune))
        = match Alist.get k (own_properties pune) with
          | Some v => Some v
          | None =>
              if String.eqb "id" k then Some (VStr "z")
              else if String.eqb "isBus" k then Some (VBool false)
              else None
          end).
Proof.
  apply (unknown_sender_report_still_broadcast (srv two_riders) "z" pune).
  reflexivity.
Defined.

(** Under the transport the case does not arise: a socket that sends has
    an entry. *)
Lemma sender_is_registered evs w ev w' ds :
  run evs boot = Some w ->
  step ev w = Some (w', ds) ->
  (forall sid, ev <> Connect sid) ->
  exists u, Alist.get (sender ev) (connectedUsers (srv w)) = Some u.
Proof.
  intros R S N. assert (OK : world_ok w) by (apply reachable_ok; now exists evs).
  rewrite step_unfold in S.
  destruct (enabled ev (sockets w)) eqn:EN; [|discriminate].
  apply (registered_of_connected w (sender ev) OK).
  destruct ev; simpl in *; try exact EN. exfalso. now apply (N sid).
Qed.

(** ** The bus role *)

(** C2: after any sequence of events, handled one after the other from the
    initial state, at most one registry entry has its role flag set.  The
    sequence is arbitrary: it may hold promotions, demotions, disconnects,
    connections and location reports, under any socket ids. *)
Theorem at_most_one_bus (evs : list event) : bus_count (exec evs initial) <= 1.
Proof. apply registry_ok_bus_count, exec_ok, initial_ok. Qed.

(** C3: in every state reached from the initial one by events of connected
    sockets, a designation that is set refers to an entry of the registry
    whose role flag is set. *)
Theorem designation_refers_to_registered_bus evs w b :
  run evs boot = Some w ->
  busUser (srv w) = Some b ->
  exists u, Alist.get (id b) (connectedUsers (srv w)) = Some u /\ isBus u = true.
Proof.
  intros R Hb. assert (OK : world_ok w) by (apply reachable_ok; now exists evs).
  exact (designation_ok w OK b Hb).
Qed.

(** The transport matters here: were a socket id to connect twice, the
    second connection would overwrite the entry of the designated bus with a
    rider.  [run] rules the sequence out, [exec] does not. *)
Example designation_relies_on_fresh_socket_ids :
  let evs := [Connect "a"; SetAsBus "a"; Connect "a"] in
  run evs boot = None
  /\ designated (exec evs initial) = Some "a"
  /\ option_map isBus (Alist.get "a" (connectedUsers (exec evs initial)))
     = Some false.
Proof. repeat split. Qed.

Lemma designation_refers_to_registered_bus_witness :
  exists u,
    Alist.get "a" (connectedUsers (srv moved_bus)) = Some u /\ isBus u = true.
Proof.
  apply (designation_refers_to_registered_bus
           [Connect "a"; Connect "b"; SetAsBus "a"; SendLocation "a" pune]
           moved_bus {| id := "a"; isBus := true; location := VNull |});
    reflexivity.
Defined.

(** C4: when [a] holds the bus role and another registered connection [b]
    asks for it, [a] becomes a rider and is sent [bus-status-changed] with
    [isBus: false], [b] becomes bus, the designation refers to [b], and every
    connected socket is sent [bus-user-changed] naming [b]. *)
Theorem promotion_displaces_current_bus w a b ua ub :
  reachable w ->
  Alist.get a (connectedUsers (srv w)) = Some ua -> isBus ua = true ->
  Alist.get b (connectedUsers (srv w)) = Some ub ->
  a <> b ->
  exists w' ds,
    step (SetAsBus b) w = Some (w', ds)
    /\ Alist.get a (connectedUsers (srv w')) = Some (set_isBus ua false)
    /\ In (a, BusStatusChanged false) ds
    /\ Alist.get b (connectedUsers (srv w')) = Some (set_isBus ub true)
    /\ designated (srv w') = Some b
    /\ forall c, connected (sockets w') c = true ->
         In (c, BusUserChanged (Some b) (busUser (srv w'))) ds.
Proof.
  intros R Ga Ba Gb N. pose proof (reachable_ok w R) as OK.
  pose proof (bus_is_designated _ (reg_ok w OK) a ua Ga Ba) as D.
  unfold designated in D.
  destruct (busUser (srv w)) as [x|] eqn:Hx; [|discriminate].
  simpl in D. inversion D as [Ex].
  assert (DP : demote_previous (srv w)
               = Alist.set a (set_isBus ua false) (connectedUsers (srv w))).
  { unfold demote_previous. now rewrite Hx, Ex, Ga. }
  assert (G1 : Alist.get b (demote_previous (srv w)) = Some ub).
  { rewrite DP, AlistFacts.get_set_other by exact N. exact Gb. }
  rewrite step_unfold. cbn [enabled sender sockets_during handle].
  rewrite (connected_of_registered w b ub OK Gb).
  unfold after, output. rewrite on_set_as_bus_unfold. cbv zeta.
  rewrite G1, Hx, Ex. unfold Alist.has. rewrite Ga. proj_simpl.
  do 2 eexists. split; [reflexivity|]. proj_simpl.
  split; [|split; [|split; [|split]]].
  - rewrite AlistFacts.get_set_other by congruence.
    rewrite DP. apply AlistFacts.get_set_same.
  - eapply deliveries_io_to; [now left|].
    eapply connected_of_registered; eauto.
  - apply AlistFacts.get_set_same.
  - unfold designated. simpl. f_equal. eapply id_is_key; [apply OK | exact Gb].
  - intros c C. eapply deliveries_io_emit; [|now apply connected_iff].
    simpl. right. right. now left.
Qed.

Lemma promotion_displaces_current_bus_witness :
  exists w' ds,
    step (SetAsBus "b") bus_and_rider = Some (w', ds)
    /\ Alist.get "a" (connectedUsers (srv w'))
       = Some (set_isBus {| id := "a"; isBus := true; location := VNull |} false)
    /\ In ("a", BusStatusChanged false) ds
    /\ Alist.get "b" (connectedUsers (srv w'))
       = Some (set_isBus {| id := "b"; isBus := false; location := VNull |} true)
    /\ designated (srv w') = Some "b"
    /\ forall c, connected (sockets w') c = true ->
         In (c, BusUserChanged (Some "b") (busUser (srv w'))) ds.
Proof.
  apply (promotion_displaces_current_bus bus_and_rider "a" "b"
           {| id := "a"; isBus := true; location := VNull |}
           {| id := "b"; isBus := false; location := VNull |}).
  - exact bus_and_rider_reachable.
  - reflexivity.
  - reflexivity.
  - reflexivity.
  - discriminate.
Defined.

(** C5: when the socket the designation refers to disconnects, the
    designation becomes none, the socket's entry leaves the registry while
    every other entry stays as it was, and every other connection, read
    off the connected sockets or off the registry before the disconnect, is
    sent [bus-user-changed] with a null bus. *)
Theorem disconnect_clears_bus w sid :
  reachable w ->
  designated (srv w) = Some sid ->
  exists w' ds,
    step (Disconnect sid) w = Some (w', ds)
    /\ busUser (srv w') = None
    /\ Alist.get sid (connectedUsers (srv w')) = None
    /\ (forall c u, Alist.get c (connectedUsers (srv w')) = Some u ->
          In (c, BusUserChanged None None) ds)
    /\ sockets w' = without sid (sockets w)
    /\ (forall k, k <> sid ->
          Alist.get k (connectedUsers (srv w')) = Alist.get k (connectedUsers (srv w)))
    /\ (forall c, In c (sockets w) -> c <> sid ->
          In (c, BusUserChanged None None) ds)
    /\ (forall c u, c <> sid -> Alist.get c (connectedUsers (srv w)) = Some u ->
          In (c, BusUserChanged None None) ds).
Proof.
  intros R D. pose proof (reachable_ok w R) as OK.
  assert (IB : is_bus_socket (busUser (srv w)) sid = true)
    by (now apply is_bus_socket_true).
  assert (C : connected (sockets w) sid = true).
  { unfold designated in D. destruct (busUser (srv w)) as [x|] eqn:Hx;
      [|discriminate]. simpl in D. injection D as Ex.
    destruct (designation_ok w OK x Hx) as [u [G _]].
    rewrite Ex in G. eapply connected_of_registered; eauto. }
  assert (S : step (Disconnect sid) w =
    Some ({| sockets := without sid (sockets w);
             srv := {| connectedUsers := Alist.delete sid (connectedUsers (srv w));
                       busUser := None |} |},
          deliveries (without sid (sockets w))
            [IoEmit (BusUserChanged None None); IoEmit (UserDisconnected sid)])).
  { rewrite step_unfold. cbn [enabled sender sockets_during handle]. rewrite C.
    unfold after, output. now rewrite on_disconnect_unfold, IB. }
  pose proof (step_ok _ _ _ _ OK S) as OK'.
  assert (Others : forall c, In c (sockets w) -> c <> sid ->
            In (c, BusUserChanged None None)
               (deliveries (without sid (sockets w))
                  [IoEmit (BusUserChanged None None); IoEmit (UserDisconnected sid)])).
  { intros c I N. eapply deliveries_io_emit; [now left|].
    apply in_without. now split. }
  do 2 eexists. split; [exact S|]. proj_simpl.
  split; [reflexivity|]. split; [apply AlistFacts.get_delete_same|].
  split; [|split; [reflexivity|split; [|split; [exact Others|]]]].
  - intros c u G. eapply deliveries_io_emit; [now left|].
    apply connected_iff. exact (connected_of_registered _ c u OK' G).
  - intros k N. apply AlistFacts.get_delete_other. congruence.
  - intros c u N G. apply Others; [|exact N].
    apply connected_iff. exact (connected_of_registered w c u OK G).
Qed.

Lemma disconnect_clears_bus_witness :
  exists w' ds,
    step (Disconnect "a") moved_bus = Some (w', ds)
    /\ busUser (srv w') = None
    /\ Alist.get "a" (connectedUsers (srv w')) = None
    /\ (forall c u, Alist.get c (connectedUsers (srv w')) = Some u ->
          In (c, BusUserChanged None None) ds)
    /\ sockets w' = without "a" (sockets moved_bus)
    /\ (forall k, k <> "a" ->
          Alist.get k (connectedUsers (srv w'))
          = Alist.get k (connectedUsers (srv moved_bus)))
    /\ (forall c, In c (sockets moved_bus) -> c <> "a" ->
          In (c, BusUserChanged None None) ds)
    /\ (forall c u, c <> "a" ->
          Alist.get c (connectedUsers (srv moved_bus)) = Some u ->
          In (c, BusUserChanged None None) ds).
Proof.
  apply (disconnect_clears_bus moved_bus "a").
  - exact moved_bus_reachable.
  - reflexivity.
Defined.

(** C9, as the code has it: when the connection the designation refers to
    asks for the bus role again, the registry is left exactly as it was, the
    designation still refers to the same connection, which is the only one
    whose flag is set, and every connected socket is sent
    [bus-user-changed] naming it.  The object kept in [busUser] is rebuilt
    as a copy of the connection's current entry, so it need not be the
    object kept before. *)
Theorem repeated_promotion_is_idempotent w a :
  reachable w ->
  designated (srv w) = Some a ->
  exists w' ds,
    step (SetAsBus a) w = Some (w', ds)
    /\ connectedUsers (srv w') = connectedUsers (srv w)
    /\ designated (srv w') = designated (srv w)
    /\ busUser (srv w') = Alist.get a (connectedUsers (srv w))
    /\ (exists u, Alist.get a (connectedUsers (srv w')) = Some u /\ isBus u = true)
    /\ (forall k u, Alist.get k (connectedUsers (srv w')) = Some u ->
          isBus u = true -> k = a)
    /\ forall c, connected (sockets w') c = true ->
         In (c, BusUserChanged (Some a) (busUser (srv w'))) ds.
Proof.
  intros R D. pose proof (reachable_ok w R) as OK.
  pose proof D as D0. unfold designated in D0.
  destruct (busUser (srv w)) as [x|] eqn:Hx; [|discriminate].
  simpl in D0. injection D0 as Ex.
  destruct (designation_ok w OK x Hx) as [p [Gp Bp]]. rewrite Ex in Gp.
  assert (Ip : id p = a) by (eapply id_is_key; [apply OK | exact Gp]).
  assert (DP : demote_previous (srv w)
               = Alist.set a (set_isBus p false) (connectedUsers (srv w))).
  { unfold demote_previous. now rewrite Hx, Ex, Gp. }
  assert (Back : set_isBus (set_isBus p false) true = p).
  { destruct p as [i f l]. simpl in Bp. subst f. reflexivity. }
  assert (Snap : bus_snapshot a p = p) by (now destruct p).
  assert (S : step (SetAsBus a) w =
    Some ({| sockets := sockets w;
             srv := {| connectedUsers := connectedUsers (srv w);
                       busUser := Some p |} |},
          deliveries (sockets w)
            [IoToEmit a (BusStatusChanged false);
             SocketEmit a (BusStatusChanged true);
             IoEmit (BusUserChanged (Some a) (Some p))])).
  { rewrite step_unfold. cbn [enabled sender sockets_during handle].
    rewrite (connected_of_registered w a p OK Gp).
    unfold after, output. rewrite on_set_as_bus_unfold. cbv zeta.
    rewrite DP, AlistFacts.get_set_same, Hx, Ex. unfold Alist.has. rewrite Gp.
    proj_simpl. rewrite Back, Snap, AlistFacts.set_set.
    now rewrite (AlistFacts.set_get_same _ _ _ Gp). }
  do 2 eexists. split; [exact S|]. proj_simpl.
  split; [reflexivity|]. split; [now rewrite D; unfold designated; simpl; rewrite Ip|].
  split; [now rewrite Gp|]. split; [eauto|]. split.
  - intros k u G B.
    pose proof (bus_is_designated _ (reg_ok w OK) k u G B) as Dk. congruence.
  - intros c C. eapply deliveries_io_emit; [|now apply connected_iff].
    simpl. right. right. now left.
Qed.

Lemma repeated_promotion_is_idempotent_witness :
  exists w' ds,
    step (SetAsBus "a") moved_bus = Some (w', ds)
    /\ connectedUsers (srv w') = connectedUsers (srv moved_bus)
    /\ designated (srv w') = designated (srv moved_bus)
    /\ busUser (srv w') = Alist.get "a" (connectedUsers (srv moved_bus))
    /\ (exists u, Alist.get "a" (connectedUsers (srv w')) = Some u /\ isBus u = true)
    /\ (forall k u, Alist.get k (connectedUsers (srv w')) = Some u ->
          isBus u = true -> k = "a")
    /\ forall c, connected (sockets w') c = true ->
         In (c, BusUserChanged (Some "a") (busUser (srv w'))) ds.
Proof.
  apply (repeated_promotion_is_idempotent moved_bus "a").
  - exact moved_bus_reachable.
  - reflexivity.
Defined.

(** C9, as stated, fails: the state is not the state before.  The copy
    kept in [busUser] dates from the promotion; after a location report the
    repeated promotion replaces it with a copy that has the new location. *)
Lemma repeated_promotion_changes_bus_copy :
  reachable moved_bus
  /\ designated (srv moved_bus) = Some "a"
  /\ busUser (srv moved_bus)
     = Some {| id := "a"; isBus := true; location := VNull |}
  /\ exists w' ds,
       step (SetAsBus "a") moved_bus = Some (w', ds)
       /\ busUser (srv w') = Some {| id := "a"; isBus := true; location := pune |}
       /\ srv w' <> srv moved_bus.
Proof.
  split; [exact moved_bus_reachable|]. split; [reflexivity|].
  split; [reflexivity|]. do 2 eexists. split; [reflexivity|].
  split; [reflexivity|]. intros E. apply (f_equal busUser) in E.
  vm_compute in E. discriminate.
Qed.

(** C10: [remove-bus] from a socket the designation does not refer to
    changes nothing in the registry or the designation and emits nothing, so
    no socket is sent anything. *)
Theorem remove_bus_by_other_is_noop s sid :
  designated s <> Some sid ->
  after (on_remove_bus sid) s = s
  /\ output (on_remove_bus sid) s = []
  /\ forall socks, deliveries socks (output (on_remove_bus sid) s) = [].
Proof.
  intros D. apply is_bus_socket_false in D.
  unfold after, output. rewrite on_remove_bus_unfold, D. repeat split.
Qed.

Lemma remove_bus_by_other_is_noop_witness :
  after (on_remove_bus "b") (srv moved_bus) = srv moved_bus
  /\ output (on_remove_bus "b") (srv moved_bus) = []
  /\ forall socks, deliveries socks (output (on_remove_bus "b") (srv moved_bus)) = [].
Proof.
  apply (remove_bus_by_other_is_noop (srv moved_bus) "b"). discriminate.
Defined.

(** ** Connection *)

(** C8: in any state, the connection handler files the new socket in the
    registry as a rider without location and then sends that socket, and no
    other, one [users-list] event: its [users] are the values of the
    registry as it then stands, so every registered entry is among them, the
    new one included, and its [currentBus] is [busUser], whose id is that of
    the designated bus, or null. *)
Theorem snapshot_is_complete s sid :
  let s' := after (on_connection sid) s in
  let snapshot := UsersList (Alist.values (connectedUsers s')) (busUser s) in
  Alist.get sid (connectedUsers s')
  = Some {| id := sid; isBus := false; location := VNull |}
  /\ busUser s' = busUser s
  /\ output (on_connection sid) s = [SocketEmit sid snapshot]
  /\ (forall socks,
        deliveries (sockets_during (Connect sid) socks)
                   (output (on_connection sid) s) = [(sid, snapshot)])
  /\ (forall k u, Alist.get k (connectedUsers s') = Some u ->
        In u (Alist.values (connectedUsers s')))
  /\ (forall k u, k <> sid -> Alist.get k (connectedUsers s) = Some u ->
        In u (Alist.values (connectedUsers s')))
  /\ option_map id (busUser s) = designated s'.
Proof.
  cbv zeta. unfold after, output. rewrite on_connection_unfold. proj_simpl.
  split; [apply AlistFacts.get_set_same|]. split; [reflexivity|].
  split; [reflexivity|]. split; [|split; [|split]].
  - intros socks. unfold deliveries, sockets_during, recipients. simpl.
    assert (C : connected (socks ++ [sid]) sid = true).
    { apply connected_iff, in_or_app. right. now left. }
    now rewrite C.
  - intros k u G. eapply AlistFacts.get_in_values; eauto.
  - intros k u N G. apply AlistFacts.get_in_values with (k := k).
    rewrite AlistFacts.get_set_other by congruence. exact G.
  - reflexivity.
Qed.

(** ** Further facts about insertion-ordered maps *)

Module AlistMore.
Section AlistMore.
Context {V : Type}.
Implicit Types (k : string) (v : V) (l : list (string * V)).

Lemma delete_absent k l : Alist.get k l = None -> Alist.delete k l = l.
Proof.
  induction l as [|[k' v'] tl IH]; simpl; [reflexivity|].
  destruct (String.eqb_spec k' k); intros H; [discriminate|].
  now rewrite IH.
Qed.

(** Deleting a key that was just appended gives the map back. *)
Lemma delete_set_fresh k v l :
  Alist.get k l = None -> Alist.delete k (Alist.set k v l) = l.
Proof.
  induction l as [|[k' v'] tl IH]; simpl.
  - now rewrite String.eqb_refl.
  - destruct (String.eqb_spec k' k) as [E|N]; intros H; [discriminate|].
    simpl. destruct (String.eqb_spec k' k); [contradiction|]. now rewrite IH.
Qed.

(** A projection that the new value shares with the old one is unchanged
    along the whole map. *)
Lemma map_values_set {B : Type} (f : V -> B) k v v0 l :
  Alist.get k l = Some v0 -> f v = f v0 ->
  map f (Alist.values (Alist.set k v l)) = map f (Alist.values l).
Proof.
  unfold Alist.values. induction l as [|[k' v'] tl IH]; simpl; [discriminate|].
  destruct (String.eqb_spec k' k); intros G F; simpl.
  - inversion G. subst. now rewrite F.
  - now rewrite IH.
Qed.

Lemma filter_values_some (p : V -> bool) k v l :
  Alist.get k l = Some v -> p v = true ->
  1 <= length (filter p (Alist.values l)).
Proof.
  unfold Alist.values. induction l as [|[k' v'] tl IH]; simpl; [discriminate|].
  destruct (String.eqb_spec k' k); intros G P.
  - inversion G. subst. rewrite P. simpl. lia.
  - destruct (p v'); simpl; [lia | now apply IH].
Qed.

Lemma get_of_in_keys k l :
  In k (Alist.keys l) -> exists v, Alist.get k l = Some v.
Proof.
  intros I. destruct (Alist.get k l) eqn:G; [eauto|].
  apply AlistFacts.get_none_iff in G. contradiction.
Qed.
End AlistMore.
End AlistMore.

Lemma ids_are_keys (l : list (string * user)) :
  NoDup (Alist.keys l) ->
  (forall k u, Alist.get k l = Some u -> id u = k) ->
  map id (Alist.values l) = Alist.keys l.
Proof.
  unfold Alist.keys, Alist.values.
  induction l as [|[k u] tl IH]; simpl; intros ND H; [reflexivity|].
  inversion ND as [|? ? NI ND']; subst. f_equal.
  - apply H. now rewrite String.eqb_refl.
  - apply IH; [exact ND'|]. intros k' u' G. apply H.
    destruct (String.eqb_spec k k') as [E|N]; [|exact G].
    subst k'. exfalso. apply NI. apply AlistFacts.get_in in G.
    change k with (fst (k, u')). now apply in_map.
Qed.

Lemma without_fresh sid socks :
  ~ In sid socks -> without sid (socks ++ [sid]) = socks.
Proof.
  unfold without. intros NI. rewrite filter_app. simpl.
  rewrite String.eqb_refl. simpl. rewrite app_nil_r.
  induction socks as [|x tl IH]; simpl; [reflexivity|].
  destruct (String.eqb_spec x sid) as [E|N]; simpl.
  - exfalso. apply NI. now left.
  - f_equal. apply IH. intros I. apply NI. now right.
Qed.

(** [run] is [exec] on the server, whenever the transport allows the run. *)
Lemma run_exec evs : forall w w',
  run evs w = Some w' -> srv w' = exec evs (srv w).
Proof.
  unfold exec. induction evs as [|ev tl IH]; simpl; intros w w' H.
  - now inversion H.
  - rewrite step_unfold in H. destruct (enabled ev (sockets w)); [|discriminate].
    apply IH in H. exact H.
Qed.

(** The object kept in [busUser] was copied from an entry whose flag had
    just been set. *)
Lemma handle_keeps_copy_flagged ev s :
  (forall b, busUser s = Some b -> isBus b = true) ->
  forall b, busUser (after (handle ev) s) = Some b -> isBus b = true.
Proof.
  intros H b. unfold after.
  destruct ev as [sid|sid data|sid|sid|sid]; cbn [handle].
  - rewrite on_connection_unfold. proj_simpl. apply H.
  - rewrite on_send_location_unfold.
    destruct (Alist.get sid (connectedUsers s)); proj_simpl; apply H.
  - rewrite on_set_as_bus_unfold. cbv zeta.
    destruct (Alist.get sid (demote_previous s)); proj_simpl; [|apply H].
    intros E. inversion E. reflexivity.
  - rewrite on_remove_bus_unfold.
    destruct (is_bus_socket (busUser s) sid); proj_simpl; [discriminate|apply H].
  - rewrite on_disconnect_unfold.
    destruct (is_bus_socket (busUser s) sid); proj_simpl; [discriminate|apply H].
Qed.

(** ** What the registry and the designation always satisfy *)

(** X1: in every state reached under the transport, the keys of
    [connectedUsers] are the connected sockets, in connection order, each
    once. *)
Theorem registry_tracks_sockets evs w :
  run evs boot = Some w ->
  Alist.keys (connectedUsers (srv w)) = sockets w /\ NoDup (sockets w).
Proof.
  intros R. assert (OK : world_ok w) by (apply reachable_ok; now exists evs).
  split; [apply OK | now apply nodup_sockets].
Qed.

Lemma registry_tracks_sockets_witness :
  Alist.keys (connectedUsers (srv moved_bus)) = sockets moved_bus
  /\ NoDup (sockets moved_bus).
Proof.
  apply (registry_tracks_sockets
           [Connect "a"; Connect "b"; SetAsBus "a"; SendLocation "a" pune]).
  reflexivity.
Defined.

(** X2: after any sequence of events, whatever the socket ids, no key of
    the registry occurs twice and the [id] fields of the entries, in map
    order, are the keys: every entry is filed under its own id. *)
Theorem entries_filed_under_own_id (evs : list event) :
  NoDup (Alist.keys (connectedUsers (exec evs initial)))
  /\ map id (Alist.values (connectedUsers (exec evs initial)))
     = Alist.keys (connectedUsers (exec evs initial)).
Proof.
  pose proof (exec_ok evs initial initial_ok) as OK.
  split; [apply OK|]. apply ids_are_keys; apply OK.
Qed.

Lemma world_ok_bus_count w :
  world_ok w ->
  bus_count (srv w) = match designated (srv w) with Some _ => 1 | None => 0 end.
Proof.
  intros OK.
  pose proof (registry_ok_bus_count (srv w) (reg_ok w OK)) as LE.
  unfold designated. destruct (busUser (srv w)) as [b|] eqn:Hb; simpl.
  - destruct (designation_ok w OK b Hb) as [u [G B]].
    pose proof (AlistMore.filter_values_some isBus _ _ _ G B) as GE.
    unfold bus_count in *. lia.
  - unfold bus_count. rewrite AlistFacts.filter_values_none; [reflexivity|].
    intros k u I. apply AlistFacts.in_get in I; [|apply OK].
    destruct (isBus u) eqn:B; [|reflexivity].
    pose proof (bus_is_designated _ (reg_ok w OK) k u I B) as D.
    unfold designated in D. rewrite Hb in D. discriminate.
Qed.

(** X3: in every state reached under the transport, exactly one entry has
    its flag set when a bus is designated, and none when [busUser] is
    null. *)
Theorem bus_count_matches_designation evs w :
  run evs boot = Some w ->
  bus_count (srv w) = match designated (srv w) with Some _ => 1 | None => 0 end.
Proof.
  intros R. apply world_ok_bus_count, reachable_ok. now exists evs.
Qed.

Lemma bus_count_matches_designation_witness :
  bus_count (srv moved_bus)
  = match designated (srv moved_bus) with Some _ => 1 | None => 0 end.
Proof.
  apply (bus_count_matches_designation
           [Connect "a"; Connect "b"; SetAsBus "a"; SendLocation "a" pune]).
  reflexivity.
Defined.

(** X4: after any sequence of events, the object kept in [busUser], when
    there is one, has [isBus] set. *)
Theorem bus_copy_is_flagged (evs : list event) b :
  busUser (exec evs initial) = Some b -> isBus b = true.
Proof.
  revert b. unfold exec.
  assert (G : forall s, (forall b, busUser s = Some b -> isBus b = true) ->
            forall b, busUser (fold_left (fun acc ev => after (handle ev) acc) evs s)
                      = Some b -> isBus b = true).
  { induction evs as [|ev tl IH]; simpl; intros s H; [exact H|].
    apply IH. now apply handle_keeps_copy_flagged. }
  apply G. simpl. discriminate.
Qed.

Lemma bus_copy_is_flagged_witness :
  isBus {| id := "a"; isBus := true; location := VNull |} = true.
Proof.
  apply (bus_copy_is_flagged [Connect "a"; SetAsBus "a"; SendLocation "a" pune]).
  reflexivity.
Defined.

(** ** Exact deliveries of the handlers *)

Lemma deliveries_recipient socks out c m :
  In (c, m) (deliveries socks out) -> In c socks.
Proof.
  unfold deliveries. rewrite in_flat_map. intros [e [_ I]].
  apply in_map_iff in I. destruct I as [r [E I]]. inversion E; subst r.
  destruct e as [m0|sid m0|room m0]; simpl in I; [exact I| |].
  - destruct (connected socks sid) eqn:C; [|contradiction].
    destruct I as [<-|[]]. now apply connected_iff.
  - destruct (connected socks room) eqn:C; [|contradiction].
    destruct I as [<-|[]]. now apply connected_iff.
Qed.

(** X5: the disconnect of a connected socket removes its entry and leaves
    every other entry as it was; [user-disconnected] with the socket's id is
    delivered to every socket that remains, and nothing at all is delivered
    to the socket that left. *)
Theorem disconnect_notifies_the_others w sid :
  connected (sockets w) sid = true ->
  exists w' ds,
    step (Disconnect sid) w = Some (w', ds)
    /\ sockets w' = without sid (sockets w)
    /\ Alist.get sid (connectedUsers (srv w')) = None
    /\ (forall k, k <> sid ->
          Alist.get k (connectedUsers (srv w')) = Alist.get k (connectedUsers (srv w)))
    /\ (forall c, In c (sockets w') -> In (c, UserDisconnected sid) ds)
    /\ (forall m, ~ In (sid, m) ds).
Proof.
  intros C. rewrite step_unfold. cbn [enabled sender sockets_during handle].
  rewrite C. do 2 eexists. split; [reflexivity|]. proj_simpl.
  unfold after, output. rewrite on_disconnect_unfold.
  split; [reflexivity|].
  destruct (is_bus_socket (busUser (srv w)) sid); proj_simpl;
    (split; [apply AlistFacts.get_delete_same|]);
    (split; [intros k N; apply AlistFacts.get_delete_other; congruence|]);
    (split; [intros c I; eapply deliveries_io_emit; [simpl; tauto | exact I]|]);
    intros m I; apply deliveries_recipient, in_without in I; tauto.
Qed.

Lemma disconnect_notifies_the_others_witness :
  exists w' ds,
    step (Disconnect "b") moved_bus = Some (w', ds)
    /\ sockets w' = without "b" (sockets moved_bus)
    /\ Alist.get "b" (connectedUsers (srv w')) = None
    /\ (forall k, k <> "b" ->
          Alist.get k (connectedUsers (srv w'))
          = Alist.get k (connectedUsers (srv moved_bus)))
    /\ (forall c, In c (sockets w') -> In (c, UserDisconnected "b") ds)
    /\ (forall m, ~ In ("b", m) ds).
Proof. apply (disconnect_notifies_the_others moved_bus "b"). reflexivity. Defined.

(** X6: when the socket that disconnects is not the designated bus, the
    designation is left as it is and the only event sent is
    [user-disconnected], once to each remaining socket. *)
Theorem rider_disconnect_keeps_designation w sid :
  connected (sockets w) sid = true ->
  designated (srv w) <> Some sid ->
  step (Disconnect sid) w
  = Some ({| sockets := without sid (sockets w);
             srv := {| connectedUsers := Alist.delete sid (connectedUsers (srv w));
                       busUser := busUser (srv w) |} |},
          map (fun c => (c, UserDisconnected sid)) (without sid (sockets w))).
Proof.
  intros C D. apply is_bus_socket_false in D.
  rewrite step_unfold. cbn [enabled sender sockets_during handle]. rewrite C.
  unfold after, output. rewrite on_disconnect_unfold, D. proj_simpl.
  rewrite deliveries_cons, deliveries_nil, app_nil_r. reflexivity.
Qed.

Lemma rider_disconnect_keeps_designation_witness :
  step (Disconnect "b") moved_bus
  = Some ({| sockets := without "b" (sockets moved_bus);
             srv := {| connectedUsers :=
                         Alist.delete "b" (connectedUsers (srv moved_bus));
                       busUser := busUser (srv moved_bus) |} |},
          map (fun c => (c, UserDisconnected "b")) (without "b" (sockets moved_bus))).
Proof.
  apply (rider_disconnect_keeps_designation moved_bus "b");
    [reflexivity | discriminate].
Defined.

(** X7: [remove-bus] from the designated bus clears its flag and the
    designation, so that no entry is flagged any more; [bus-user-changed]
    with a null bus is delivered to every connected socket, then
    [bus-status-changed] with [isBus: false] to the socket itself. *)
Theorem remove_bus_by_bus_clears_role w sid :
  reachable w ->
  designated (srv w) = Some sid ->
  exists u w',
    Alist.get sid (connectedUsers (srv w)) = Some u
    /\ step (RemoveBus sid) w
       = Some (w', map (fun c => (c, BusUserChanged None None)) (sockets w)
                   ++ [(sid, BusStatusChanged false)])
    /\ sockets w' = sockets w
    /\ connectedUsers (srv w')
       = Alist.set sid (set_isBus u false) (connectedUsers (srv w))
    /\ busUser (srv w') = None
    /\ bus_count (srv w') = 0.
Proof.
  intros R D. pose proof (reachable_ok w R) as OK.
  assert (IB : is_bus_socket (busUser (srv w)) sid = true)
    by (now apply is_bus_socket_true).
  pose proof D as D0. unfold designated in D0.
  destruct (busUser (srv w)) as [x|] eqn:Hx; [|discriminate].
  simpl in D0. injection D0 as Ex.
  destruct (designation_ok w OK x Hx) as [u [G _]]. rewrite Ex in G.
  pose proof (connected_of_registered w sid u OK G) as C.
  assert (S : step (RemoveBus sid) w
    = Some ({| sockets := sockets w;
               srv := {| connectedUsers :=
                           Alist.set sid (set_isBus u false) (connectedUsers (srv w));
                         busUser := None |} |},
            map (fun c => (c, BusUserChanged None None)) (sockets w)
            ++ [(sid, BusStatusChanged false)])).
  { rewrite step_unfold. cbn [enabled sender sockets_during handle]. rewrite C.
    unfold after, output. rewrite on_remove_bus_unfold, Hx, IB, G. proj_simpl.
    rewrite !deliveries_cons, deliveries_nil, app_nil_r.
    cbn [recipients emitted]. rewrite C. reflexivity. }
  pose proof (step_ok _ _ _ _ OK S) as OK'.
  exists u. eexists. split; [exact G|]. split; [exact S|]. proj_simpl.
  repeat split. exact (world_ok_bus_count _ OK').
Qed.

Lemma remove_bus_by_bus_clears_role_witness :
  exists u w',
    Alist.get "a" (connectedUsers (srv moved_bus)) = Some u
    /\ step (RemoveBus "a") moved_bus
       = Some (w', map (fun c => (c, BusUserChanged None None)) (sockets moved_bus)
                   ++ [("a", BusStatusChanged false)])
    /\ sockets w' = sockets moved_bus
    /\ connectedUsers (srv w')
       = Alist.set "a" (set_isBus u false) (connectedUsers (srv moved_bus))
    /\ busUser (srv w') = None
    /\ bus_count (srv w') = 0.
Proof.
  apply (remove_bus_by_bus_clears_role moved_bus "a");
    [exact moved_bus_reachable | reflexivity].
Defined.

(** X8: when no bus is designated, [set-as-bus] from a connected socket
    sets that socket's flag and nothing else in the registry, designates
    it, and sends no demotion notice: the socket gets [bus-status-changed]
    with [isBus: true], then every connected socket gets
    [bus-user-changed] naming it. *)
Theorem first_promotion w sid u :
  reachable w ->
  designated (srv w) = None ->
  Alist.get sid (connectedUsers (srv w)) = Some u ->
  step (SetAsBus sid) w
  = Some ({| sockets := sockets w;
             srv := {| connectedUsers :=
                         Alist.set sid (set_isBus u true) (connectedUsers (srv w));
                       busUser := Some (set_isBus u true) |} |},
          (sid, BusStatusChanged true)
          :: map (fun c => (c, BusUserChanged (Some sid) (Some (set_isBus u true))))
                 (sockets w)).
Proof.
  intros R D G. pose proof (reachable_ok w R) as OK.
  pose proof (connected_of_registered w sid u OK G) as C.
  unfold designated in D.
  destruct (busUser (srv w)) as [x|] eqn:Hx; [discriminate|].
  rewrite step_unfold. cbn [enabled sender sockets_during handle]. rewrite C.
  unfold after, output. rewrite on_set_as_bus_unfold. cbv zeta.
  unfold demote_previous. rewrite Hx, G. proj_simpl.
  cbn [app]. rewrite !deliveries_cons, deliveries_nil, app_nil_r.
  cbn [recipients emitted]. rewrite C. reflexivity.
Qed.

Lemma first_promotion_witness :
  step (SetAsBus "b") two_riders
  = Some ({| sockets := sockets two_riders;
             srv := {| connectedUsers :=
                         Alist.set "b"
                           (set_isBus {| id := "b"; isBus := false; location := VNull |} true)
                           (connectedUsers (srv two_riders));
                       busUser :=
                         Some (set_isBus {| id := "b"; isBus := false; location := VNull |}
                                         true) |} |},
          ("b", BusStatusChanged true)
          :: map (fun c => (c, BusUserChanged (Some "b")
                    (Some (set_isBus {| id := "b"; isBus := false; location := VNull |}
                                     true))))
                 (sockets two_riders)).
Proof.
  apply (first_promotion two_riders "b"
           {| id := "b"; isBus := false; location := VNull |});
    [exact two_riders_reachable | reflexivity | reflexivity].
Defined.

(** X9: when [b] displaces the bus [a], the demotion notice is delivered to
    [a] alone and the promotion notice to [b] alone, before the broadcast;
    the entries of all other connections are left as they were. *)
Theorem displacement_notices w a b ua ub :
  reachable w ->
  Alist.get a (connectedUsers (srv w)) = Some ua -> isBus ua = true ->
  Alist.get b (connectedUsers (srv w)) = Some ub ->
  a <> b ->
  exists w',
    step (SetAsBus b) w
    = Some (w', (a, BusStatusChanged false) :: (b, BusStatusChanged true)
                :: map (fun c => (c, BusUserChanged (Some b) (Some (set_isBus ub true))))
                       (sockets w))
    /\ forall k, k <> a -> k <> b ->
         Alist.get k (connectedUsers (srv w')) = Alist.get k (connectedUsers (srv w)).
Proof.
  intros R Ga Ba Gb N. pose proof (reachable_ok w R) as OK.
  pose proof (bus_is_designated _ (reg_ok w OK) a ua Ga Ba) as D.
  unfold designated in D.
  destruct (busUser (srv w)) as [x|] eqn:Hx; [|discriminate].
  simpl in D. injection D as Ex.
  assert (DP : demote_previous (srv w)
               = Alist.set a (set_isBus ua false) (connectedUsers (srv w))).
  { unfold demote_previous. now rewrite Hx, Ex, Ga. }
  assert (G1 : Alist.get b (demote_previous (srv w)) = Some ub).
  { rewrite DP, AlistFacts.get_set_other by exact N. exact Gb. }
  pose proof (connected_of_registered w a ua OK Ga) as Ca.
  pose proof (connected_of_registered w b ub OK Gb) as Cb.
  rewrite step_unfold. cbn [enabled sender sockets_during handle]. rewrite Cb.
  unfold after, output. rewrite on_set_as_bus_unfold. cbv zeta.
  rewrite G1, Hx, Ex. unfold Alist.has. rewrite Ga. proj_simpl.
  eexists. split.
  - cbn [app]. rewrite !deliveries_cons, deliveries_nil, app_nil_r.
    cbn [recipients emitted]. rewrite Ca, Cb. reflexivity.
  - intros k Na Nb. proj_simpl.
    rewrite AlistFacts.get_set_other by congruence.
    rewrite DP. apply AlistFacts.get_set_other. congruence.
Qed.

Lemma displacement_notices_witness :
  exists w',
    step (SetAsBus "b") moved_bus
    = Some (w', ("a", BusStatusChanged false) :: ("b", BusStatusChanged true)
                :: map (fun c => (c, BusUserChanged (Some "b")
                          (Some (set_isBus {| id := "b"; isBus := false;
                                              location := VNull |} true))))
                       (sockets moved_bus))
    /\ forall k, k <> "a" -> k <> "b" ->
         Alist.get k (connectedUsers (srv w'))
         = Alist.get k (connectedUsers (srv moved_bus)).
Proof.
  apply (displacement_notices moved_bus "a" "b"
           {| id := "a"; isBus := true; location := pune |}
           {| id := "b"; isBus := false; location := VNull |});
    [exact moved_bus_reachable | reflexivity | reflexivity | reflexivity
    | discriminate].
Defined.

(** X10: [set-as-bus] under an id that has no registry entry promotes
    nobody, yet still demotes the designated bus: its flag is cleared and
    it is sent the demotion notice, while [busUser] keeps referring to it
    and no [bus-user-changed] goes out. *)
Theorem promotion_by_unknown_id_demotes_bus s sid b p :
  Alist.get sid (connectedUsers s) = None ->
  busUser s = Some b ->
  Alist.get (id b) (connectedUsers s) = Some p ->
  after (on_set_as_bus sid) s
  = {| connectedUsers := Alist.set (id b) (set_isBus p false) (connectedUsers s);
       busUser := Some b |}
  /\ output (on_set_as_bus sid) s = [IoToEmit (id b) (BusStatusChanged false)].
Proof.
  intros G Hb Gp. unfold after, output. rewrite on_set_as_bus_unfold. cbv zeta.
  assert (N : id b <> sid) by congruence.
  unfold demote_previous, Alist.has. rewrite Hb, Gp.
  rewrite AlistFacts.get_set_other by exact N. rewrite G. split; reflexivity.
Qed.

Lemma promotion_by_unknown_id_demotes_bus_witness :
  after (on_set_as_bus "z") (srv moved_bus)
  = {| connectedUsers :=
         Alist.set "a" (set_isBus {| id := "a"; isBus := true; location := pune |} false)
                   (connectedUsers (srv moved_bus));
       busUser := Some {| id := "a"; isBus := true; location := VNull |} |}
  /\ output (on_set_as_bus "z") (srv moved_bus)
     = [IoToEmit "a" (BusStatusChanged false)].
Proof.
  apply (promotion_by_unknown_id_demotes_bus (srv moved_bus) "z"
           {| id := "a"; isBus := true; location := VNull |}
           {| id := "a"; isBus := true; location := pune |});
    reflexivity.
Defined.

(** X11: only [set-as-bus] designates a bus: in any state, the handlers of
    a connection, a location report, [remove-bus] and a disconnect leave
    [busUser] as it was or set it to null. *)
Theorem only_set_as_bus_designates ev s :
  (forall sid, ev <> SetAsBus sid) ->
  busUser (after (handle ev) s) = busUser s
  \/ busUser (after (handle ev) s) = None.
Proof.
  intros N. unfold after.
  destruct ev as [sid|sid data|sid|sid|sid]; cbn [handle].
  - rewrite on_connection_unfold. now left.
  - rewrite on_send_location_unfold.
    destruct (Alist.get sid (connectedUsers s)); now left.
  - exfalso. now apply (N sid).
  - rewrite on_remove_bus_unfold.
    destruct (is_bus_socket (busUser s) sid); [now right | now left].
  - rewrite on_disconnect_unfold.
    destruct (is_bus_socket (busUser s) sid); [now right | now left].
Qed.

Lemma only_set_as_bus_designates_witness :
  busUser (after (handle (Disconnect "a")) (srv moved_bus)) = busUser (srv moved_bus)
  \/ busUser (after (handle (Disconnect "a")) (srv moved_bus)) = None.
Proof.
  apply (only_set_as_bus_designates (Disconnect "a") (srv moved_bus)).
  discriminate.
Defined.

(** ** Location reports, continued *)

(** X12: a location report never touches a role: in any state and for any
    payload, the keys of the registry, the [id] and [isBus] fields of its
    entries and [busUser] are as before, and so is every entry but the
    sender's. *)
Theorem location_report_keeps_roles s sid data :
  let s' := after (on_send_location sid data) s in
  Alist.keys (connectedUsers s') = Alist.keys (connectedUsers s)
  /\ map id (Alist.values (connectedUsers s')) = map id (Alist.values (connectedUsers s))
  /\ map isBus (Alist.values (connectedUsers s'))
     = map isBus (Alist.values (connectedUsers s))
  /\ busUser s' = busUser s
  /\ forall k, k <> sid ->
       Alist.get k (connectedUsers s') = Alist.get k (connectedUsers s).
Proof.
  cbv zeta. unfold after. rewrite on_send_location_unfold.
  destruct (Alist.get sid (connectedUsers s)) as [u|] eqn:G; proj_simpl;
    [|repeat split].
  split; [eapply AlistFacts.keys_set_present; eauto|].
  split; [eapply AlistMore.map_values_set; eauto|].
  split; [eapply AlistMore.map_values_set; eauto|].
  split; [reflexivity|].
  intros k N. apply AlistFacts.get_set_other. congruence.
Qed.

(** X13: the properties of the [receive-location] event.  Every own
    property of the payload is in the event with the payload's value, the
    properties [id] and [isBus] included; the sender's socket id and role
    flag are in the event only under the names the payload leaves free. *)
Theorem broadcast_properties s sid data k :
  NoDup (Alist.keys (own_properties data)) ->
  exists payload,
    output (on_send_location sid data) s = [IoEmit (ReceiveLocation payload)]
    /\ Alist.get k payload
       = match Alist.get k (own_properties data) with
         | Some v => Some v
         | None =>
             if String.eqb "id" k then Some (VStr sid)
             else if String.eqb "isBus" k then Some (VBool (role_flag s sid))
             else None
         end.
Proof.
  intros ND. unfold output, role_flag. rewrite on_send_location_unfold.
  destruct (Alist.get sid (connectedUsers s)) as [u|]; eexists;
    (split; [reflexivity|]);
    now rewrite (get_spread k _ _ (nodup_id_isBus _ _) ND).
Qed.

Lemma broadcast_properties_witness :
  exists payload,
    output (on_send_location "a" (VObj [("id", VStr "b"); ("lat", VNum 18.5%float)]))
           (srv two_riders)
    = [IoEmit (ReceiveLocation payload)]
    /\ Alist.get "id" payload
       = match Alist.get "id"
                 (own_properties (VObj [("id", VStr "b"); ("lat", VNum 18.5%float)]))
         with
         | Some v => Some v
         | None =>
             if String.eqb "id" "id" then Some (VStr "a")
             else if String.eqb "isBus" "id"
                  then Some (VBool (role_flag (srv two_riders) "a"))
                  else None
         end.
Proof.
  apply (broadcast_properties (srv two_riders) "a"
           (VObj [("id", VStr "b"); ("lat", VNum 18.5%float)]) "id").
  simpl. repeat constructor; simpl; intuition discriminate.
Defined.

(** A report whose payload has an [id] of its own is broadcast under that
    id, not under the sender's. *)
Example report_under_another_id :
  deliveries (sockets two_riders)
    (output (on_send_location "a" (VObj [("id", VStr "b"); ("lat", VNum 18.5%float)]))
            (srv two_riders))
  = [("a", ReceiveLocation [("id", VStr "b"); ("isBus", VBool false);
                            ("lat", VNum 18.5%float)]);
     ("b", ReceiveLocation [("id", VStr "b"); ("isBus", VBool false);
                            ("lat", VNum 18.5%float)])].
Proof. reflexivity. Qed.

(** ** How the handlers compose *)

Lemma world_eta w : {| sockets := sockets w;
                       srv := {| connectedUsers := connectedUsers (srv w);
                                 busUser := busUser (srv w) |} |} = w.
Proof. destruct w as [socks [reg bu]]. reflexivity. Qed.

Lemma fresh_is_not_bus w sid :
  world_ok w -> connected (sockets w) sid = false ->
  is_bus_socket (busUser (srv w)) sid = false.
Proof.
  intros OK C. apply is_bus_socket_false. intros D.
  destruct (busUser (srv w)) as [x|] eqn:Hx; [|discriminate].
  simpl in D. injection D as Ex.
  destruct (designation_ok w OK x Hx) as [u [G _]]. rewrite Ex in G.
  rewrite (connected_of_registered w sid u OK G) in C. discriminate.
Qed.

Lemma fresh_is_unregistered w sid :
  world_ok w -> connected (sockets w) sid = false ->
  Alist.get sid (connectedUsers (srv w)) = None.
Proof.
  intros OK C. apply AlistFacts.get_none_iff. rewrite (keys_sockets w OK).
  now apply connected_false_iff.
Qed.

(** X14: a socket that connects and disconnects at once leaves no trace:
    registry, designation and connected sockets are exactly as before. *)
Theorem connect_then_disconnect w sid :
  reachable w ->
  connected (sockets w) sid = false ->
  run [Connect sid; Disconnect sid] w = Some w.
Proof.
  intros R C. pose proof (reachable_ok w R) as OK.
  pose proof (fresh_is_unregistered w sid OK C) as G.
  pose proof (fresh_is_not_bus w sid OK C) as NB.
  cbn [run]. rewrite step_unfold. cbn [enabled sender sockets_during handle].
  rewrite C. cbn [negb]. rewrite step_unfold.
  cbn [enabled sender sockets_during handle sockets srv].
  assert (C' : connected (sockets w ++ [sid]) sid = true).
  { apply connected_iff, in_or_app. right. now left. }
  rewrite C'. f_equal. unfold after.
  rewrite on_disconnect_unfold, on_connection_unfold. proj_simpl. rewrite NB.
  proj_simpl. rewrite (AlistMore.delete_set_fresh _ _ _ G).
  rewrite without_fresh by (now apply connected_false_iff).
  apply world_eta.
Qed.

Lemma connect_then_disconnect_witness :
  run [Connect "c"; Disconnect "c"] moved_bus = Some moved_bus.
Proof.
  apply (connect_then_disconnect moved_bus "c");
    [exact moved_bus_reachable | reflexivity].
Defined.

(** X15: when no bus is designated, a connected socket that takes the bus
    role and gives it back leaves registry and designation exactly as
    before. *)
Theorem promote_then_demote w sid :
  reachable w ->
  designated (srv w) = None ->
  connected (sockets w) sid = true ->
  run [SetAsBus sid; RemoveBus sid] w = Some w.
Proof.
  intros R D C. pose proof (reachable_ok w R) as OK.
  destruct (registered_of_connected w sid OK C) as [u G].
  assert (F : isBus u = false).
  { destruct (isBus u) eqn:B; [|reflexivity].
    pose proof (bus_is_designated _ (reg_ok w OK) sid u G B). congruence. }
  assert (I : id u = sid) by (eapply id_is_key; [apply OK | exact G]).
  unfold designated in D.
  destruct (busUser (srv w)) as [x|] eqn:Hx; [discriminate|].
  cbn [run]. rewrite step_unfold. cbn [enabled sender sockets_during handle].
  rewrite C. rewrite step_unfold.
  cbn [enabled sender sockets_during handle sockets srv]. rewrite C.
  f_equal. unfold after.
  rewrite on_remove_bus_unfold, on_set_as_bus_unfold. cbv zeta.
  unfold demote_previous. rewrite Hx, G. proj_simpl.
  cbn [is_bus_socket bus_snapshot set_isBus id]. rewrite I, String.eqb_refl.
  rewrite AlistFacts.get_set_same, AlistFacts.set_set.
  assert (Back : set_isBus (set_isBus u true) false = u).
  { destruct u as [i f l]. simpl in F. subst f. reflexivity. }
  rewrite Back. proj_simpl.
  rewrite (AlistFacts.set_get_same _ _ _ G), <- Hx. apply world_eta.
Qed.

Lemma promote_then_demote_witness :
  run [SetAsBus "b"; RemoveBus "b"] two_riders = Some two_riders.
Proof.
  apply (promote_then_demote two_riders "b");
    [exact two_riders_reachable | reflexivity | reflexivity].
Defined.

(** X16: the snapshot sent at connection lists the connected sockets in
    connection order, the new one last, each once, with [busUser] as
    [currentBus]; every entry registered before is in it unchanged. *)
Theorem snapshot_lists_sockets_in_order w sid :
  reachable w ->
  connected (sockets w) sid = false ->
  exists w' users,
    step (Connect sid) w = Some (w', [(sid, UsersList users (busUser (srv w)))])
    /\ map id users = sockets w ++ [sid]
    /\ users = Alist.values (connectedUsers (srv w))
               ++ [{| id := sid; isBus := false; location := VNull |}].
Proof.
  intros R C. pose proof (reachable_ok w R) as OK.
  pose proof (fresh_is_unregistered w sid OK C) as G.
  assert (V : forall (l : list (string * user)) v,
            Alist.get sid l = None ->
            Alist.values (Alist.set sid v l) = Alist.values l ++ [v]).
  { unfold Alist.values. induction l as [|[k' v'] tl IH]; simpl; intros v H;
      [reflexivity|].
    destruct (String.eqb_spec k' sid); [discriminate|]. simpl. now rewrite IH. }
  rewrite step_unfold. cbn [enabled sender sockets_during handle]. rewrite C.
  cbn [negb]. unfold after, output. rewrite on_connection_unfold. proj_simpl.
  do 2 eexists. split.
  - rewrite deliveries_cons, deliveries_nil, app_nil_r. cbn [recipients emitted].
    assert (C' : connected (sockets w ++ [sid]) sid = true).
    { apply connected_iff, in_or_app. right. now left. }
    rewrite C'. reflexivity.
  - rewrite (V _ _ G). split; [|reflexivity].
    rewrite map_app. simpl. f_equal.
    rewrite <- (keys_sockets w OK). apply ids_are_keys; apply OK.
Qed.

Lemma snapshot_lists_sockets_in_order_witness :
  exists w' users,
    step (Connect "c") moved_bus
    = Some (w', [("c", UsersList users (busUser (srv moved_bus)))])
    /\ map id users = sockets moved_bus ++ ["c"]
    /\ users = Alist.values (connectedUsers (srv moved_bus))
               ++ [{| id := "c"; isBus := false; location := VNull |}].
Proof.
  apply (snapshot_lists_sockets_in_order moved_bus "c");
    [exact moved_bus_reachable | reflexivity].
Defined.

(** X17: a location reported by a registered socket is what a socket that
    connects next finds in its snapshot: the sender's entry, with the
    payload as received for location. *)
Theorem late_joiner_sees_reported_location w sid data u n :
  Alist.get sid (connectedUsers (srv w)) = Some u ->
  connected (sockets w) sid = true ->
  connected (sockets w) n = false ->
  exists w1 ds1 w2 users,
    step (SendLocation sid data) w = Some (w1, ds1)
    /\ step (Connect n) w1 = Some (w2, [(n, UsersList users (busUser (srv w)))])
    /\ In (set_location u data) users.
Proof.
  intros G C Cn.
  rewrite step_unfold. cbn [enabled sender sockets_during handle]. rewrite C.
  do 4 eexists. split; [reflexivity|].
  rewrite step_unfold. cbn [enabled sender sockets_during handle sockets srv].
  rewrite Cn. cbn [negb]. unfold after, output.
  rewrite on_connection_unfold, on_send_location_unfold, G. proj_simpl.
  rewrite deliveries_cons, deliveries_nil, app_nil_r. cbn [recipients emitted].
  assert (C' : connected (sockets w ++ [n]) n = true).
  { apply connected_iff, in_or_app. right. now left. }
  rewrite C'. split; [reflexivity|].
  apply AlistFacts.get_in_values with (k := sid).
  assert (N : n <> sid) by (intros E; subst n; congruence).
  rewrite AlistFacts.get_set_other by exact N.
  apply AlistFacts.get_set_same.
Qed.

Lemma late_joiner_sees_reported_location_witness :
  exists w1 ds1 w2 users,
    step (SendLocation "b" pune) two_riders = Some (w1, ds1)
    /\ step (Connect "c") w1
       = Some (w2, [("c", UsersList users (busUser (srv two_riders)))])
    /\ In (set_location {| id := "b"; isBus := false; location := VNull |} pune)
          users.
Proof.
  apply (late_joiner_sees_reported_location two_riders "b" pune
           {| id := "b"; isBus := false; location := VNull |} "c");
    reflexivity.
Defined.

(** ** The browser script *)

Lemma bus_number_format_nonempty s : bus_number_format s = true -> s <> "".
Proof. intros H E. subst s. discriminate. Qed.

(** X18: a click on the become-bus button emits [become-bus] exactly when
    the trimmed bus number is one to ten letters or digits and a route is
    selected, and then with these two values; in every other case it ends
    in an error message and nothing is emitted. *)
Theorem become_bus_emits_iff (trim : string -> string) input route busNumber routeId :
  become_bus_click trim input route = EmitBecomeBus busNumber routeId
  <-> (exists raw, input = Some raw /\ trim raw = busNumber)
      /\ route = Some routeId /\ routeId <> ""
      /\ bus_number_format busNumber = true.
Proof.
  unfold become_bus_click. split.
  - destruct input as [raw|]; simpl; [|discriminate].
    destruct (String.eqb_spec (trim raw) ""); [discriminate|].
    destruct route as [r|]; [|discriminate].
    destruct (String.eqb_spec r ""); [discriminate|].
    destruct (bus_number_format (trim raw)) eqn:F; simpl; [|discriminate].
    intros H. inversion H; subst. repeat split; eauto.
  - intros [[raw [-> <-]] [-> [N F]]]. simpl.
    destruct (String.eqb_spec (trim raw) "") as [E|_].
    + now apply bus_number_format_nonempty in F.
    + destruct (String.eqb_spec routeId ""); [contradiction|].
      now rewrite F.
Qed.

Lemma become_bus_emits_iff_witness :
  become_bus_click (fun s => s) (Some "42A") (Some "route1")
  = EmitBecomeBus "42A" "route1".
Proof.
  apply (proj2 (become_bus_emits_iff (fun s => s) (Some "42A") (Some "route1")
                  "42A" "route1")).
  split; [exists "42A"; split; reflexivity|].
  split; [reflexivity|]. split; [discriminate | reflexivity].
Defined.

(** X19: the server and the browser script share no event: no message the
    server emits has a name the script listens to, and no name the script
    emits is one the server handles. *)
Theorem no_shared_event :
  (forall m, ~ In (event_name m) client_handles)
  /\ (forall n, In n client_emits -> ~ In n server_handles).
Proof.
  split.
  - intros m. destruct m; simpl; intuition discriminate.
  - intros n I. simpl in *. intuition (subst; discriminate).
Qed.
